(** * bunqJSClient: the signed-session core of [src/BunqJSClient.ts]

    A shallow embedding of the [BunqJSClient] class: the install / device /
    session state machine, the renewal of the session and the expiry timer.

    - JavaScript values of type [any] (API responses, thrown errors) are
      [JsVal]; objects are finite maps from property names to values, arrays
      are objects with index keys.  The numbers of a value are integers
      ([JNum]) or [JNaN].  Arithmetic is that of doubles on integers ([Num]):
      results are rounded to the nearest double, overflow to an infinity, and
      a [Date] holds a time value within 8.64e15 ms of the epoch or is
      invalid.
    - The fields of the class and of its [Session] are records.
    - Synchronous methods live in the state-and-exception monad [Sync];
      [async] methods are resumptions [Prog] that suspend at every [await]
      of a collaborator ([Call]) and are resumed with its [Outcome].
    - What the class uses and [src/BunqJSClient.ts] does not define (the
      [Session] class, the API adapter, the logger, the engine's [Date] and
      [process]) is either a field of [Host] or a [Call] that is answered
      from outside. *)

From stdpp Require Import gmap strings list fin_maps pretty.
From Stdlib Require Import ZArith Lia.

Set Warnings "-register-all".
Local Open Scope Z_scope.

(** ** JavaScript values *)

Inductive JsVal : Type :=
| JUndefined
| JNull
| JBool (b : bool)
| JNum (z : Z)
| JNaN
| JStr (s : string)
| JObj (m : gmap string JsVal).

(** ** Numbers and dates *)

(** A number as arithmetic sees it.  The client computes with integers only
    (milliseconds, seconds), so a number is an integer that a double holds,
    one of the two infinities, or NaN.  The sign of zero is not kept. *)
Inductive Num : Type :=
| Finite (z : Z)
| PosInfinity
| NegInfinity
| NaN.

(** Up to 2^53 every integer is a double. *)
Definition MAX_EXACT : Z := 9007199254740992.

(** The double nearest to the integer [z], ties to the even mantissa: [z]
    itself up to 2^53, beyond that [z] rounded to 53 significant bits, and an
    infinity once that reaches 2^1024. *)
Definition round_double (z : Z) : Num :=
  let a := Z.abs z in
  if a <=? MAX_EXACT then Finite z
  else
    let s := Z.log2 a - 52 in
    let q := a / 2 ^ s in
    let r := a mod 2 ^ s in
    let half := 2 ^ (s - 1) in
    let m := if (half <? r) || ((r =? half) && Z.odd q) then q + 1 else q in
    let v := m * 2 ^ s in
    if 2 ^ 1024 <=? v then (if 0 <? z then PosInfinity else NegInfinity)
    else Finite (Z.sgn z * v).

(** A [Date] object is its time value in milliseconds ([None]: Invalid Date). *)
Definition Date : Type := option Z.

(** The largest time value of a [Date]. *)
Definition MAX_TIME : Z := 8640000000000000.

(** TimeClip: what [new Date(n)] and [setTime(n)] keep of a number. *)
Definition time_clip (n : Num) : Date :=
  match n with
  | Finite z => if Z.abs z <=? MAX_TIME then Some z else None
  | _ => None
  end.

(** [d.getTime()] *)
Definition getTime (d : Date) : Num :=
  match d with
  | Some t => Finite t
  | None => NaN
  end.

(** Completion of synchronous code: a value, or a thrown value. *)
Inductive Res (A : Type) : Type :=
| Val (a : A)
| Thr (e : JsVal).
Arguments Val {A} a.
Arguments Thr {A} e.

(** [new Error(message)] and the engine's [TypeError]. *)
Definition js_Error (message : string) : JsVal :=
  JObj {[ "name" := JStr "Error"; "message" := JStr message ]}.

Definition js_TypeError (message : string) : JsVal :=
  JObj {[ "name" := JStr "TypeError"; "message" := JStr message ]}.

(** A JSON array: an object with index keys. *)
Fixpoint js_array_from (i : nat) (l : list JsVal) : gmap string JsVal :=
  match l with
  | [] => ∅
  | x :: l' => <[pretty i := x]> (js_array_from (S i) l')
  end.

Definition js_array (l : list JsVal) : JsVal :=
  JObj (<["length" := JNum (Z.of_nat (length l))]> (js_array_from 0 l)).

(** ToBoolean. *)
Definition truthy (v : JsVal) : bool :=
  match v with
  | JUndefined | JNull | JNaN => false
  | JBool b => b
  | JNum z => negb (z =? 0)
  | JStr s => negb (String.eqb s "")
  | JObj _ => true
  end.

Definition nullish (v : JsVal) : bool :=
  match v with
  | JUndefined | JNull => true
  | _ => false
  end.

(** [v !== undefined] *)
Definition defined (v : JsVal) : bool :=
  match v with
  | JUndefined => false
  | _ => true
  end.

(** [v === n] for a number literal [n]. *)
Definition is_num (n : Z) (v : JsVal) : bool :=
  match v with
  | JNum z => z =? n
  | _ => false
  end.

(** [v.p] for the property names that the client itself reads.  Reading a
    property of [undefined] or [null] throws.  No prototype defines one of
    these names, so an object yields its own property or undefined, and a
    primitive yields undefined.  (A key that the caller chooses is read with
    [get_member] below.) *)
Definition get_prop (v : JsVal) (p : string) : Res JsVal :=
  match v with
  | JUndefined | JNull => Thr (js_TypeError ("Cannot read property " +:+ p))
  | JObj m => Val (default JUndefined (m !! p))
  | _ => Val JUndefined
  end.

(** [v[0]]: the first element of an array, the first character of a string. *)
Definition get_first (v : JsVal) : Res JsVal :=
  match v with
  | JStr (String c _) => Val (JStr (String c ""))
  | _ => get_prop v "0"
  end.

(** [v.p = x] in strict code: only an object takes the property. *)
Definition set_prop (v : JsVal) (p : string) (x : JsVal) : Res JsVal :=
  match v with
  | JObj m => Val (JObj (<[p := x]> m))
  | _ => Thr (js_TypeError ("Cannot set property " +:+ p))
  end.

(** [a + b], [a - b] and [a * b] of doubles: the exact result, rounded. *)
Definition num_add (a b : Num) : Num :=
  match a, b with
  | NaN, _ | _, NaN => NaN
  | PosInfinity, NegInfinity | NegInfinity, PosInfinity => NaN
  | PosInfinity, _ | _, PosInfinity => PosInfinity
  | NegInfinity, _ | _, NegInfinity => NegInfinity
  | Finite x, Finite y => round_double (x + y)
  end.

Definition num_neg (a : Num) : Num :=
  match a with
  | Finite x => Finite (- x)
  | PosInfinity => NegInfinity
  | NegInfinity => PosInfinity
  | NaN => NaN
  end.

Definition num_sub (a b : Num) : Num := num_add a (num_neg b).

Definition num_mul (a b : Num) : Num :=
  match a, b with
  | NaN, _ | _, NaN => NaN
  | Finite x, Finite y => round_double (x * y)
  | Finite x, PosInfinity | PosInfinity, Finite x =>
      if x =? 0 then NaN else if 0 <? x then PosInfinity else NegInfinity
  | Finite x, NegInfinity | NegInfinity, Finite x =>
      if x =? 0 then NaN else if 0 <? x then NegInfinity else PosInfinity
  | PosInfinity, PosInfinity | NegInfinity, NegInfinity => PosInfinity
  | PosInfinity, NegInfinity | NegInfinity, PosInfinity => NegInfinity
  end.

(** [a > b]: false as soon as one side is NaN. *)
Definition num_gt (a b : Num) : bool :=
  match a, b with
  | NaN, _ | _, NaN => false
  | Finite x, Finite y => y <? x
  | PosInfinity, PosInfinity => false
  | PosInfinity, _ => true
  | _, PosInfinity => false
  | NegInfinity, _ => false
  | Finite _, NegInfinity => true
  end.

(** ** The state: the client, its session, and what the host keeps *)

Record Session : Type := mkSession {
  publicKey : JsVal;
  serverPublicKeyPem : JsVal;
  serverPublicKey : JsVal;
  installToken : JsVal;
  installUpdated : option Date;
  installCreated : option Date;
  deviceId : JsVal;
  isOAuthKey : bool;
  userInfo : JsVal;
  sessionExpiryTime : option Date;
  sessionTimeout : Num;
  sessionId : JsVal;
  sessionToken : JsVal;
  sessionTokenId : JsVal;
  sessionExpiryTimeChecker : option nat
}.

Record Client : Type := mkClient {
  apiKey : JsVal;
  allowedIps : JsVal;
  session : Session;
  keepAlive : bool;
  fetchingNewSession : option nat;
  errorCodes : JsVal
}.

Inductive Callback : Type :=
| ExpiryTimerCallback.

(** A timer armed by [setTimeout]: what to call, after which delay, armed when. *)
Record Timer : Type := mkTimer {
  timer_callback : Callback;
  timer_delay : Num;
  timer_armed : Z
}.

Inductive LogEntry : Type :=
| LogDebug (message : string)
| LogError (value : JsVal).

Record World : Type := mkWorld {
  client : Client;
  now : Z;
  timers : gmap nat Timer;
  next_timer : nat;
  next_promise : nat;
  logged : list LogEntry
}.

(** What the class takes from outside of this file. *)
Record Host : Type := mkHost {
  (** [process.env], when the global [process] exists *)
  process_env : option (gmap string string);
  (** [Date.parse] *)
  Date_parse : string -> Num;
  (** ToString and ToNumber of the engine, where this file does not spell them out *)
  ToString : JsVal -> string;
  ToNumber : JsVal -> Num;
  Date_toString : Date -> string;
  (** what reading the property finds that is not an own property of the
      value: on a primitive, or up the prototype chain of an object
      (undefined for a name that no prototype defines) *)
  inherited : JsVal -> string -> JsVal;
  (** the three checks of the [Session] class *)
  verifyInstallation : Session -> Z -> bool;
  verifyDeviceInstallation : Session -> Z -> bool;
  verifySessionInstallation : Session -> Z -> bool
}.

(** ** Field updates *)

Definition with_session (f : Session -> Session) (c : Client) : Client :=
  mkClient (apiKey c) (allowedIps c) (f (session c)) (keepAlive c)
           (fetchingNewSession c) (errorCodes c).

Definition with_client (f : Client -> Client) (w : World) : World :=
  mkWorld (f (client w)) (now w) (timers w) (next_timer w) (next_promise w) (logged w).

Definition set_apiKey (v : JsVal) (c : Client) : Client :=
  mkClient v (allowedIps c) (session c) (keepAlive c) (fetchingNewSession c) (errorCodes c).

Definition set_allowedIps (v : JsVal) (c : Client) : Client :=
  mkClient (apiKey c) v (session c) (keepAlive c) (fetchingNewSession c) (errorCodes c).

Definition set_keepAlive (b : bool) (c : Client) : Client :=
  mkClient (apiKey c) (allowedIps c) (session c) b (fetchingNewSession c) (errorCodes c).

Definition set_fetchingNewSession (p : option nat) (c : Client) : Client :=
  mkClient (apiKey c) (allowedIps c) (session c) (keepAlive c) p (errorCodes c).

Definition set_serverPublicKeyPem (v : JsVal) (s : Session) : Session :=
  mkSession (publicKey s) v (serverPublicKey s) (installToken s) (installUpdated s)
    (installCreated s) (deviceId s) (isOAuthKey s) (userInfo s) (sessionExpiryTime s)
    (sessionTimeout s) (sessionId s) (sessionToken s) (sessionTokenId s)
    (sessionExpiryTimeChecker s).

Definition set_serverPublicKey (v : JsVal) (s : Session) : Session :=
  mkSession (publicKey s) (serverPublicKeyPem s) v (installToken s) (installUpdated s)
    (installCreated s) (deviceId s) (isOAuthKey s) (userInfo s) (sessionExpiryTime s)
    (sessionTimeout s) (sessionId s) (sessionToken s) (sessionTokenId s)
    (sessionExpiryTimeChecker s).

Definition set_installToken (v : JsVal) (s : Session) : Session :=
  mkSession (publicKey s) (serverPublicKeyPem s) (serverPublicKey s) v (installUpdated s)
    (installCreated s) (deviceId s) (isOAuthKey s) (userInfo s) (sessionExpiryTime s)
    (sessionTimeout s) (sessionId s) (sessionToken s) (sessionTokenId s)
    (sessionExpiryTimeChecker s).

Definition set_installUpdated (d : option Date) (s : Session) : Session :=
  mkSession (publicKey s) (serverPublicKeyPem s) (serverPublicKey s) (installToken s) d
    (installCreated s) (deviceId s) (isOAuthKey s) (userInfo s) (sessionExpiryTime s)
    (sessionTimeout s) (sessionId s) (sessionToken s) (sessionTokenId s)
    (sessionExpiryTimeChecker s).

Definition set_installCreated (d : option Date) (s : Session) : Session :=
  mkSession (publicKey s) (serverPublicKeyPem s) (serverPublicKey s) (installToken s)
    (installUpdated s) d (deviceId s) (isOAuthKey s) (userInfo s) (sessionExpiryTime s)
    (sessionTimeout s) (sessionId s) (sessionToken s) (sessionTokenId s)
    (sessionExpiryTimeChecker s).

Definition set_deviceId (v : JsVal) (s : Session) : Session :=
  mkSession (publicKey s) (serverPublicKeyPem s) (serverPublicKey s) (installToken s)
    (installUpdated s) (installCreated s) v (isOAuthKey s) (userInfo s)
    (sessionExpiryTime s) (sessionTimeout s) (sessionId s) (sessionToken s)
    (sessionTokenId s) (sessionExpiryTimeChecker s).

Definition set_isOAuthKey (b : bool) (s : Session) : Session :=
  mkSession (publicKey s) (serverPublicKeyPem s) (serverPublicKey s) (installToken s)
    (installUpdated s) (installCreated s) (deviceId s) b (userInfo s)
    (sessionExpiryTime s) (sessionTimeout s) (sessionId s) (sessionToken s)
    (sessionTokenId s) (sessionExpiryTimeChecker s).

Definition set_userInfo (v : JsVal) (s : Session) : Session :=
  mkSession (publicKey s) (serverPublicKeyPem s) (serverPublicKey s) (installToken s)
    (installUpdated s) (installCreated s) (deviceId s) (isOAuthKey s) v
    (sessionExpiryTime s) (sessionTimeout s) (sessionId s) (sessionToken s)
    (sessionTokenId s) (sessionExpiryTimeChecker s).

Definition set_sessionExpiryTime (d : option Date) (s : Session) : Session :=
  mkSession (publicKey s) (serverPublicKeyPem s) (serverPublicKey s) (installToken s)
    (installUpdated s) (installCreated s) (deviceId s) (isOAuthKey s) (userInfo s) d
    (sessionTimeout s) (sessionId s) (sessionToken s) (sessionTokenId s)
    (sessionExpiryTimeChecker s).

Definition set_sessionTimeout (n : Num) (s : Session) : Session :=
  mkSession (publicKey s) (serverPublicKeyPem s) (serverPublicKey s) (installToken s)
    (installUpdated s) (installCreated s) (deviceId s) (isOAuthKey s) (userInfo s)
    (sessionExpiryTime s) n (sessionId s) (sessionToken s) (sessionTokenId s)
    (sessionExpiryTimeChecker s).

Definition set_sessionId (v : JsVal) (s : Session) : Session :=
  mkSession (publicKey s) (serverPublicKeyPem s) (serverPublicKey s) (installToken s)
    (installUpdated s) (installCreated s) (deviceId s) (isOAuthKey s) (userInfo s)
    (sessionExpiryTime s) (sessionTimeout s) v (sessionToken s) (sessionTokenId s)
    (sessionExpiryTimeChecker s).

Definition set_sessionToken (v : JsVal) (s : Session) : Session :=
  mkSession (publicKey s) (serverPublicKeyPem s) (serverPublicKey s) (installToken s)
    (installUpdated s) (installCreated s) (deviceId s) (isOAuthKey s) (userInfo s)
    (sessionExpiryTime s) (sessionTimeout s) (sessionId s) v (sessionTokenId s)
    (sessionExpiryTimeChecker s).

Definition set_sessionTokenId (v : JsVal) (s : Session) : Session :=
  mkSession (publicKey s) (serverPublicKeyPem s) (serverPublicKey s) (installToken s)
    (installUpdated s) (installCreated s) (deviceId s) (isOAuthKey s) (userInfo s)
    (sessionExpiryTime s) (sessionTimeout s) (sessionId s) (sessionToken s) v
    (sessionExpiryTimeChecker s).

Definition set_sessionExpiryTimeChecker (h : option nat) (s : Session) : Session :=
  mkSession (publicKey s) (serverPublicKeyPem s) (serverPublicKey s) (installToken s)
    (installUpdated s) (installCreated s) (deviceId s) (isOAuthKey s) (userInfo s)
    (sessionExpiryTime s) (sessionTimeout s) (sessionId s) (sessionToken s)
    (sessionTokenId s) h.

Definition add_log (e : LogEntry) (w : World) : World :=
  mkWorld (client w) (now w) (timers w) (next_timer w) (next_promise w) (logged w ++ [e]).

(** [setTimeout]: the timer gets the next handle. *)
Definition arm_timer (t : Timer) (w : World) : World :=
  mkWorld (client w) (now w) (<[next_timer w := t]> (timers w)) (S (next_timer w))
          (next_promise w) (logged w).

(** [clearTimeout]: a handle that is not armed any more is ignored. *)
Definition cancel_timer (h : nat) (w : World) : World :=
  mkWorld (client w) (now w) (delete h (timers w)) (next_timer w) (next_promise w) (logged w).

Definition take_promise (w : World) : World :=
  mkWorld (client w) (now w) (timers w) (next_timer w) (S (next_promise w)) (logged w).

(** ** Synchronous code: state and exceptions *)

Definition Sync (A : Type) : Type := World -> Res A * World.

Definition sync_ret {A} (a : A) : Sync A := fun w => (Val a, w).

Definition sync_bind {A B} (f : A -> Sync B) (m : Sync A) : Sync B :=
  fun w =>
    match m w with
    | (Val a, w') => f a w'
    | (Thr e, w') => (Thr e, w')
    end.

#[global] Instance Sync_ret : MRet Sync := @sync_ret.
#[global] Instance Sync_bind : MBind Sync := @sync_bind.

Definition read : Sync World := fun w => (Val w, w).

Definition modify (f : World -> World) : Sync unit := fun w => (Val tt, f w).

Definition throw {A} (e : JsVal) : Sync A := fun w => (Thr e, w).

Definition pure {A} (r : Res A) : Sync A := fun w => (r, w).

(** ** Asynchronous code: resumptions over the collaborators *)

(** The calls that an [async] method awaits. *)
Inductive Call : Type :=
| Session_setup (apiKey allowedIps environment encryptionKey : JsVal)
| Session_storeSession
| Session_setupKeypair (force : bool)
| Session_destroySession
| Session_destroyApiSession (save : bool)
| ApiAdapter_setup
| publicKeyFromPem (pem : JsVal)
| Api_installation_add
| Api_deviceRegistration_add (options : JsVal)
| Api_sessionServer_add
| Api_sessionServer_delete
| Api_user_list
| Limiter_run (path method url : string).

(** How an awaited promise settles. *)
Inductive Outcome : Type :=
| Resolved (v : JsVal)
| Rejected (e : JsVal).

Inductive Prog (A : Type) : Type :=
| Ret (a : A)
| Throw (e : JsVal)
| Get (k : World -> Prog A)
| Put (w : World) (k : Prog A)
| Await (c : Call) (k : Outcome -> Prog A).
Arguments Ret {A} a.
Arguments Throw {A} e.
Arguments Get {A} k.
Arguments Put {A} w k.
Arguments Await {A} c k.

Fixpoint prog_bind {A B} (f : A -> Prog B) (p : Prog A) : Prog B :=
  match p with
  | Ret a => f a
  | Throw e => Throw e
  | Get k => Get (fun w => prog_bind f (k w))
  | Put w k => Put w (prog_bind f k)
  | Await c k => Await c (fun o => prog_bind f (k o))
  end.

#[global] Instance Prog_ret : MRet Prog := @Ret.
#[global] Instance Prog_bind : MBind Prog := @prog_bind.

(** [try { p } catch (e) { h e }] *)
Fixpoint try_catch {A} (p : Prog A) (h : JsVal -> Prog A) : Prog A :=
  match p with
  | Ret a => Ret a
  | Throw e => h e
  | Get k => Get (fun w => try_catch (k w) h)
  | Put w k => Put w (try_catch k h)
  | Await c k => Await c (fun o => try_catch (k o) h)
  end.

(** A synchronous stretch inside an [async] method. *)
Definition sync {A} (m : Sync A) : Prog A :=
  Get (fun w =>
    match m w with
    | (Val a, w') => Put w' (Ret a)
    | (Thr e, w') => Put w' (Throw e)
    end).

(** [await c]: a rejection is thrown at the point of the [await]. *)
Definition await (c : Call) : Prog JsVal :=
  Await c (fun o =>
    match o with
    | Resolved v => Ret v
    | Rejected e => Throw e
    end).

(** [x = f(); ...; await x] for an [async] function [f]: the call runs [f]
    up to its first [await] (or to its end), then the caller goes on with
    [act] before it waits for what [f] settles to. *)
Fixpoint started {A} (act : World -> World) (p : Prog A) : Prog A :=
  match p with
  | Ret a => Get (fun w => Put (act w) (Ret a))
  | Throw e => Get (fun w => Put (act w) (Throw e))
  | Get k => Get (fun w => started act (k w))
  | Put w k => Put w (started act k)
  | Await c k => Get (fun w => Put (act w) (Await c k))
  end.

(** *** One caller, answered call by call *)

(** The answer to an awaited call: how it settles, and what the rest of the
    program did to the state in the meantime. *)
Record Reply : Type := mkReply {
  reply_outcome : Outcome;
  reply_effect : World -> World
}.

Inductive Final (A : Type) : Type :=
| Settled (r : Res A)
| Pending (c : Call).
Arguments Settled {A} r.
Arguments Pending {A} c.

Record Run (A : Type) : Type := mkRun {
  run_final : Final A;
  run_world : World;
  run_trace : list (Call * Outcome)
}.
Arguments mkRun {A} _ _ _.
Arguments run_final {A} _.
Arguments run_world {A} _.
Arguments run_trace {A} _.

Definition traced {A} (c : Call) (o : Outcome) (r : Run A) : Run A :=
  mkRun (run_final r) (run_world r) ((c, o) :: run_trace r).

Fixpoint exec {A} (p : Prog A) (replies : list Reply) (w : World) : Run A :=
  match p with
  | Ret a => mkRun (Settled (Val a)) w []
  | Throw e => mkRun (Settled (Thr e)) w []
  | Get k => exec (k w) replies w
  | Put w' k => exec k replies w'
  | Await c k =>
      match replies with
      | [] => mkRun (Pending c) w []
      | r :: replies' =>
          traced c (reply_outcome r)
            (exec (k (reply_outcome r)) replies' (reply_effect r w))
      end
  end.

(** *** Several callers on one event loop *)

Inductive Task (A : Type) : Type :=
| Done (r : Res A)
| Waiting (c : Call) (k : Outcome -> Prog A).
Arguments Done {A} r.
Arguments Waiting {A} c k.

(** Run to the next [await]. *)
Fixpoint advance {A} (p : Prog A) (w : World) : Task A * World :=
  match p with
  | Ret a => (Done (Val a), w)
  | Throw e => (Done (Thr e), w)
  | Get k => advance (k w) w
  | Put w' k => advance k w'
  | Await c k => (Waiting c k, w)
  end.

(** A call of an [async] function whose promise is not awaited: the function
    runs up to its first [await] (or to its end) inside the caller; what is
    left of it goes on by itself when that call is answered. *)
Definition detached {A} (p : Prog A) : Sync (Task A) :=
  fun w => let '(t, w') := advance p w in (Val t, w').

(** A task that goes on: it waits for the answer to its call. *)
Definition resume {A} (t : Task A) : Prog A :=
  match t with
  | Done (Val a) => Ret a
  | Done (Thr e) => Throw e
  | Waiting c k => Await c k
  end.

Record Loop : Type := mkLoop {
  loop_world : World;
  loop_tasks : list (Task JsVal);
  loop_requests : list Call
}.

Definition request_of {A} (t : Task A) : list Call :=
  match t with
  | Done _ => []
  | Waiting c _ => [c]
  end.

(** A caller invokes the method: it runs up to its first [await]. *)
Definition invoke (p : Prog JsVal) (l : Loop) : Loop :=
  let '(t, w) := advance p (loop_world l) in
  mkLoop w (loop_tasks l ++ [t]) (loop_requests l ++ request_of t).

(** The call that task [i] waits for settles. *)
Definition settle (i : nat) (o : Outcome) (l : Loop) : Loop :=
  match loop_tasks l !! i with
  | Some (Waiting _ k) =>
      let '(t, w) := advance (k o) (loop_world l) in
      mkLoop w (<[i := t]> (loop_tasks l)) (loop_requests l ++ request_of t)
  | _ => l
  end.

(** The calls that are awaited right now. *)
Definition waiting_on (l : Loop) : list Call :=
  flat_map request_of (loop_tasks l).

(** ** The class *)

Definition FIVE_MINUTES_MS : Z := 300000.

(** What [getUserType] returns. *)
Record UserType : Type := mkUserType {
  info : JsVal;
  type : string;
  isOAuth : bool
}.

Section BunqJSClient.

Variable host : Host.

(** [typeof process !== "undefined" && process.env.ENV_CI === "true"] *)
Definition env_ci : bool :=
  match process_env host with
  | Some env => bool_decide (env !! "ENV_CI" = Some "true")
  | None => false
  end.

(** ToString; a string is itself. *)
Definition to_string (v : JsVal) : string :=
  match v with
  | JStr s => s
  | _ => ToString host v
  end.

(** ToNumber, as [*] applies it to its operands.  [JNum z] is the number
    that the literal [z] denotes: the double nearest to it. *)
Definition to_number (v : JsVal) : Num :=
  match v with
  | JUndefined | JNaN => NaN
  | JNull => Finite 0
  | JBool b => Finite (if b then 1 else 0)
  | JNum z => round_double z
  | JStr _ | JObj _ => ToNumber host v
  end.

(** [new Date(v)]: a string is parsed, anything else is taken as a number;
    the time value is clipped. *)
Definition new_Date (v : JsVal) : Date :=
  match v with
  | JStr s => time_clip (Date_parse host s)
  | JObj _ => time_clip (Date_parse host (ToString host v))
  | _ => time_clip (to_number v)
  end.

(** [this.logger.debug] and [this.logger.error] *)
Definition logger_debug (message : string) : Sync unit :=
  modify (add_log (LogDebug message)).

Definition logger_error (value : JsVal) : Sync unit :=
  modify (add_log (LogError value)).

Definition the_session : Sync Session :=
  w ← read; mret (session (client w)).

Definition update_session (f : Session -> Session) : Sync unit :=
  modify (with_client (with_session f)).

Definition update_client (f : Client -> Client) : Sync unit :=
  modify (with_client f).

(** [setKeepAlive] *)
Definition setKeepAlive (keepAlive : bool) : Sync unit :=
  update_client (set_keepAlive keepAlive).

(** [getUserType]: the first of the four fields that is not [undefined]. *)
Definition getUserType (userInfo : JsVal) : Res UserType :=
  match get_prop userInfo "UserCompany" with
  | Thr e => Thr e
  | Val company =>
  if defined company then Val (mkUserType company "UserCompany" false) else
  match get_prop userInfo "UserPerson" with
  | Thr e => Thr e
  | Val person =>
  if defined person then Val (mkUserType person "UserPerson" false) else
  match get_prop userInfo "UserLight" with
  | Thr e => Thr e
  | Val light =>
  if defined light then Val (mkUserType light "UserLight" false) else
  match get_prop userInfo "UserApiKey" with
  | Thr e => Thr e
  | Val key =>
  if defined key then Val (mkUserType key "UserApiKey" true) else
  Thr (js_Error
    "No supported account type found! (Not one of UserLight, UserPerson, UserApiKey or UserCompany)")
  end end end end.

(** [clearExpiryTimer]: the handle stays in the session. *)
Definition clearExpiryTimer : Sync unit :=
  s ← the_session;
  match sessionExpiryTimeChecker s with
  | Some h => modify (cancel_timer h)
  | None => mret tt
  end.

(** [setExpiryTimer] *)
Definition setExpiryTimer (shortTimeout : bool) : Sync JsVal :=
  if env_ci then mret (JBool false) else
  w ← read;
  if negb (keepAlive (client w)) then
    clearExpiryTimer;;
    mret (JBool false)
  else
    match sessionExpiryTime (session (client w)) with
    | Some expiry =>
        let currentTime : Date := Some (now w) in
        let expiresInMilliseconds := num_sub (getTime expiry) (getTime currentTime) in
        let expiresInMilliseconds :=
          if shortTimeout then
            if num_gt (sessionTimeout (session (client w))) (Finite FIVE_MINUTES_MS)
            then Finite FIVE_MINUTES_MS
            else sessionTimeout (session (client w))
          else expiresInMilliseconds in
        let timeoutRequestDuration := num_sub expiresInMilliseconds (Finite 15000) in
        clearExpiryTimer;;
        w' ← read;
        modify (arm_timer (mkTimer ExpiryTimerCallback timeoutRequestDuration (now w')));;
        update_session (set_sessionExpiryTimeChecker (Some (next_timer w')));;
        mret JUndefined
    | None => mret JUndefined
    end.

(** [parseOauthUser] *)
Definition parseOauthUser (userInfoParsed : UserType) : Sync JsVal :=
  requested_by_user ← pure (get_prop (info userInfoParsed) "requested_by_user");
  requestedByUserParsed ← pure (getUserType requested_by_user);
  granted_by_user ← pure (get_prop (info userInfoParsed) "granted_by_user");
  grantedByUserParsed ← pure (getUserType granted_by_user);
  sessionTimeout ← pure (get_prop (info requestedByUserParsed) "session_timeout");
  logger_debug ("Received requestedByUserParsed.info.session_timeout from api: "
                +:+ to_string sessionTimeout);;
  granted_id ← pure (get_prop (info grantedByUserParsed) "id");
  granted_info ←
    (if negb (truthy granted_id) then
       outer_id ← pure (get_prop (info userInfoParsed) "id");
       pure (set_prop (info grantedByUserParsed) "id" outer_id)
     else mret (info grantedByUserParsed));
  s ← the_session;
  userInfo' ← pure (set_prop (userInfo s) "UserApiKey" granted_info);
  update_session (set_userInfo userInfo');;
  mret sessionTimeout.

(** The part of [getUser] and [getUsers] that refreshes the user info. *)
Definition refresh_users : Prog unit :=
  userList ← await Api_user_list;
  userInfoParsed ← sync (pure (getUserType userList));
  if isOAuth userInfoParsed then
    sync (parseOauthUser userInfoParsed);;
    mret tt
  else
    sync (s ← the_session;
          userInfo' ← pure (set_prop (userInfo s) (type userInfoParsed) (info userInfoParsed));
          update_session (set_userInfo userInfo')).

(** [v[p]] for a key [p] that the caller chooses: an own property of an
    object, or else what the engine finds for [p] up the prototype chain or
    on a primitive. *)
Definition get_member (v : JsVal) (p : string) : Res JsVal :=
  match v with
  | JUndefined | JNull => Thr (js_TypeError ("Cannot read property " +:+ p))
  | JObj m => Val (default (inherited host v p) (m !! p))
  | _ => Val (inherited host v p)
  end.

(** [getUser] *)
Definition getUser (userType : string) (updated : bool) : Prog JsVal :=
  (if updated then refresh_users else mret tt);;
  sync (s ← the_session; pure (get_member (userInfo s) userType)).

(** [getUsers] *)
Definition getUsers (updated : bool) : Prog JsVal :=
  (if updated then refresh_users else mret tt);;
  sync (s ← the_session; mret (userInfo s)).

(** [generateSession] *)
Definition generateSession : Prog JsVal :=
  response ←
    try_catch
      (sync (logger_debug " === Attempting to fetch session");;
       await Api_sessionServer_add)
      (fun error =>
         sync (
           error_response ← pure (get_prop error "response");
           has_error ←
             (if truthy error_response then
                data ← pure (get_prop error_response "data");
                pure (get_prop data "Error")
              else mret error_response);
           (if truthy has_error then
              responseError ← pure (get_first has_error);
              description ← pure (get_prop responseError "error_description");
              logger_error (JStr ("bunq API error: " +:+ to_string description))
            else mret tt);;
           w ← read;
           errorCode ← pure (get_prop (errorCodes (client w)) "INSTALLATION_HAS_SESSION");
           throw (JObj {[ "errorCode" := errorCode; "error" := error ]})));
  sync (
    token ← pure (get_prop response "token");
    created ← pure (get_prop token "created");
    logger_debug ("response.token.created:" +:+ to_string created);;
    let createdDate : Date := new_Date (JStr (to_string created +:+ " UTC")) in
    user_info ← pure (get_prop response "user_info");
    userInfoParsed ← pure (getUserType user_info);
    sessionTimeout ←
      (if negb (isOAuth userInfoParsed) then
         sessionTimeout ← pure (get_prop (info userInfoParsed) "session_timeout");
         logger_debug ("Received userInfoParsed.info.session_timeout from api: "
                       +:+ to_string sessionTimeout);;
         update_session (set_isOAuthKey false);;
         update_session (set_userInfo user_info);;
         mret sessionTimeout
       else parseOauthUser userInfoParsed);
    let sessionTimeout := num_mul (to_number sessionTimeout) (Finite 1000) in
    let createdDate : Date := time_clip (num_add (getTime createdDate) sessionTimeout) in
    update_session (set_sessionExpiryTime (Some createdDate));;
    update_session (set_sessionTimeout sessionTimeout);;
    id ← pure (get_prop response "id");
    update_session (set_sessionId id);;
    token_token ← pure (get_prop token "token");
    update_session (set_sessionToken token_token);;
    token_id ← pure (get_prop token "id");
    update_session (set_sessionTokenId token_id);;
    w ← read;
    logger_debug ("calculated expireDate: " +:+ Date_toString host createdDate
                  +:+ " current date: " +:+ Date_toString host (Some (now w))));;
  await Session_storeSession;;
  sync (setExpiryTimer false);;
  mret (JBool true).

(** [registerSession] *)
Definition registerSession : Prog JsVal :=
  w ← sync read;
  (if negb (verifySessionInstallation host (session (client w)) (now w)) then
     try_catch
       (started
          (fun w => with_client (set_fetchingNewSession (Some (next_promise w)))
                                (take_promise w))
          generateSession;;
        mret tt)
       (fun exception =>
          sync (update_client (set_fetchingNewSession None));;
          Throw exception);;
     sync (update_client (set_fetchingNewSession None))
   else mret tt);;
  mret (JBool true).

(** [install] *)
Definition install : Prog JsVal :=
  w ← sync read;
  (if negb (verifyInstallation host (session (client w)) (now w)) then
     (if negb (truthy (publicKey (session (client w)))) then
        Throw (js_Error
          "No public key is set yet, make sure you setup an encryption key with BunqJSClient->setup()")
      else mret tt);;
     response ← await Api_installation_add;
     pem ← sync (pure (get_prop response "serverPublicKey"));
     sync (update_session (set_serverPublicKeyPem pem));;
     key ← await (publicKeyFromPem pem);
     sync (
       update_session (set_serverPublicKey key);;
       token ← pure (get_prop response "token");
       token_token ← pure (get_prop token "token");
       update_session (set_installToken token_token);;
       updated ← pure (get_prop token "updated");
       update_session (set_installUpdated (Some (new_Date updated)));;
       created ← pure (get_prop token "created");
       update_session (set_installCreated (Some (new_Date created))));;
     await Session_storeSession;;
     mret tt
   else mret tt);;
  mret (JBool true).

(** The state that [registerDevice] leaves of a rejected installation. *)
Definition destroy_installation (s : Session) : Session :=
  set_installCreated None
    (set_installUpdated None
       (set_installToken JNull
          (set_serverPublicKey JNull
             (set_serverPublicKeyPem JNull s)))).

(** [registerDevice] *)
Definition registerDevice (deviceName : JsVal) : Prog JsVal :=
  let deviceName := if defined deviceName then deviceName else JStr "My Device" in
  w ← sync read;
  (if negb (verifyDeviceInstallation host (session (client w)) (now w)) then
     try_catch
       (w ← sync read;
        deviceId ← await (Api_deviceRegistration_add
                            (JObj {[ "description" := deviceName;
                                     "permitted_ips" := allowedIps (client w) ]}));
        sync (update_session (set_deviceId deviceId));;
        await Session_storeSession;;
        mret tt)
       (fun error =>
          response ← sync (pure (get_prop error "response"));
          (if negb (truthy response) then Throw error else mret tt);;
          status ← sync (pure (get_prop response "status"));
          (if is_num 400 status then
             sync (update_session destroy_installation);;
             await (Session_setupKeypair true);;
             await Session_storeSession;;
             mret tt
           else mret tt);;
          Throw error)
   else mret tt);;
  mret (JBool true).

(** [createCredentials] *)
Definition createCredentials : Prog JsVal :=
  response ← await (Limiter_run "/credential-password-ip-request" "POST"
                      "https://api.tinker.bunq.com/v1/credential-password-ip-request");
  sync (
    list ← pure (get_prop response "Response");
    first ← pure (get_first list);
    pure (get_prop first "UserCredentialPasswordIpRequest")).

(** [checkCredentialStatus] *)
Definition checkCredentialStatus (uuid : string) : Prog JsVal :=
  response ← await (Limiter_run "/credential-password-ip-request" "GET"
                      ("https://api.tinker.bunq.com/v1/credential-password-ip-request/" +:+ uuid));
  sync (
    list ← pure (get_prop response "Response");
    first ← pure (get_first list);
    pure (get_prop first "UserCredentialPasswordIpRequest")).

(** [run] *)
Definition run (apiKey allowedIps environment encryptionKey : JsVal) : Prog JsVal :=
  let allowedIps := if defined allowedIps then allowedIps else js_array [] in
  let environment := if defined environment then environment else JStr "SANDBOX" in
  let encryptionKey := if defined encryptionKey then encryptionKey else JBool false in
  sync (
    logger_debug "bunqJSClient run";;
    update_client (set_apiKey apiKey);;
    update_client (set_allowedIps allowedIps));;
  await (Session_setup apiKey allowedIps environment encryptionKey);;
  sync (setExpiryTimer false);;
  await ApiAdapter_setup;;
  mret JUndefined.

(** [destroySession] *)
Definition destroySession : Prog JsVal :=
  w ← sync read;
  (if verifyInstallation host (session (client w)) (now w)
      && verifyDeviceInstallation host (session (client w)) (now w)
      && verifySessionInstallation host (session (client w)) (now w)
   then
     try_catch (await Api_sessionServer_delete;; mret tt) (fun ex => mret tt)
   else mret tt);;
  sync clearExpiryTimer;;
  await Session_destroySession;;
  mret JUndefined.

(** [destroyApiSession] *)
Definition destroyApiSession : Prog JsVal :=
  sync clearExpiryTimer;;
  await (Session_destroyApiSession true);;
  mret JUndefined.

(** The chain [getUsers(true).then(...).catch(...)] of [expiryTimerCallback]:
    a failure of the refresh or of the first handler is logged. *)
Definition refresh_chain : Prog unit :=
  try_catch
    (getUsers true;;
     sync (logger_debug "Triggered session refresh"))
    (fun error => sync (logger_error error)).

(** [expiryTimerCallback]: a synchronous function.  With keepAlive on it
    starts the refresh, which sends its request and is left to itself, sets
    the timer again and returns undefined at once.  Here it returns, with
    its result, the chain that it has left running. *)
Definition expiryTimerCallback : Sync (JsVal * option (Task unit)) :=
  w ← read;
  if negb (keepAlive (client w)) then
    clearExpiryTimer;;
    mret (JBool false, None)
  else
    chain ← detached refresh_chain;
    setExpiryTimer true;;
    mret (JUndefined, Some chain).

End BunqJSClient.

(** ** A sample host and sample data *)

(** Modelled from the spec: [Session.verifyInstallation] is not part of the
    source.  The installation (server public key and install token) is null
    until [install] succeeds. *)
Definition spec_verifyInstallation (s : Session) (now : Z) : bool :=
  negb (nullish (serverPublicKey s)) && negb (nullish (installToken s)).

(** Modelled from the spec: [Session.verifyDeviceInstallation] is not part of
    the source.  The device id is null until [registerDevice] succeeds, and the
    absence of an earlier stage invalidates the later ones. *)
Definition spec_verifyDeviceInstallation (s : Session) (now : Z) : bool :=
  spec_verifyInstallation s now && negb (nullish (deviceId s)).

(** Modelled from the spec: [Session.verifySessionInstallation] is not part of
    the source.  A session is usable only if installation, device registration
    and expiry time later than now all hold. *)
Definition spec_verifySessionInstallation (s : Session) (now : Z) : bool :=
  spec_verifyDeviceInstallation s now
  && match sessionExpiryTime s with
     | Some (Some expiry) => now <? expiry
     | _ => false
     end.

Definition sample_ToString (v : JsVal) : string :=
  match v with
  | JUndefined => "undefined"
  | JNull => "null"
  | JBool true => "true"
  | JBool false => "false"
  | JNum z => pretty z
  | JNaN => "NaN"
  | JStr s => s
  | JObj _ => "[object Object]"
  end.

Definition sample_Date_parse (s : string) : Num :=
  if String.eqb s "2019-06-01 12:00:00.000000 UTC" then Finite 1559390400000 else NaN.

Definition sample_Date_toString (d : Date) : string :=
  match d with
  | Some t => pretty t
  | None => "Invalid Date"
  end.

(** A host without [ENV_CI], and one that runs in CI. *)
Definition sample_host : Host :=
  mkHost (Some ∅) sample_Date_parse sample_ToString (fun _ => NaN) sample_Date_toString
         (fun _ _ => JUndefined)
         spec_verifyInstallation spec_verifyDeviceInstallation spec_verifySessionInstallation.

Definition ci_host : Host :=
  mkHost (Some {[ "ENV_CI" := "true" ]}) sample_Date_parse sample_ToString (fun _ => NaN)
         sample_Date_toString (fun _ _ => JUndefined)
         spec_verifyInstallation spec_verifyDeviceInstallation spec_verifySessionInstallation.

(** Modelled from the spec: the enumeration of error codes
    ([Helpers/ErrorCodes]) is not part of the source.  It is a fixed
    enumeration of named codes; this one has the name that the code reads and
    the name that the spec uses for a failed session creation. *)
Definition sample_errorCodes : JsVal :=
  JObj {[ "INSTALLATION_HAS_SESSION" := JStr "INSTALLATION_HAS_SESSION";
          "SESSION_CREATION_FAILED" := JStr "SESSION_CREATION_FAILED" ]}.

(** A client right after its constructor, with a key pair. *)
Definition new_session : Session :=
  mkSession (JStr "public-key") JNull JNull JNull None None JNull false (JObj ∅) None
            (Finite 0) JNull JNull JNull None.

Definition new_client : Client :=
  mkClient JNull (js_array []) new_session true None sample_errorCodes.

Definition new_world : World :=
  mkWorld new_client 1559390400500 ∅ 0 0 [].

(** ** Principal classification *)




(** An error of the transport without a response. *)
Definition network_error : JsVal := js_Error "Network Error".

(** The installation: server public key (PEM and parsed), install token and
    the two install timestamps. *)
Definition installation (s : Session) : JsVal * JsVal * JsVal * option Date * option Date :=
  (serverPublicKeyPem s, serverPublicKey s, installToken s, installUpdated s, installCreated s).

(** The request that [registerDevice] sends. *)
Definition device_request (deviceName : JsVal) (w : World) : Call :=
  Api_deviceRegistration_add
    (JObj {[ "description" := (if defined deviceName then deviceName else JStr "My Device");
             "permitted_ips" := allowedIps (client w) ]}).

(** An error of the transport that carries a response with [status]. *)
Definition rejection (status : Z) : JsVal :=
  JObj {[ "response" := JObj {[ "status" := JNum status; "data" := JObj ∅ ]} ]}.

(** The test of the catch block of [registerDevice]: the error has a truthy
    response whose status is the number 400. *)
Definition bad_request (error : JsVal) : bool :=
  match get_prop error "response" with
  | Val response =>
      truthy response
      && match get_prop response "status" with
         | Val status => is_num 400 status
         | Thr _ => false
         end
  | Thr _ => false
  end.

(** The spec's client-error class. *)
Definition client_error (status : Z) : bool := (400 <=? status) && (status <? 500).

(** A collaborator that resolves with [v] and leaves the world alone. *)
Definition resolves (v : JsVal) : Reply := mkReply (Resolved v) id.

Definition rejects (e : JsVal) : Reply := mkReply (Rejected e) id.

(** A client that is installed and has no device yet. *)
Definition installed_session : Session :=
  mkSession (JStr "public-key") (JStr "server-pem") (JStr "server-key") (JStr "install-token")
            (Some (Some 1559390000000)) (Some (Some 1559390000000)) JNull false (JObj ∅) None
            (Finite 0) JNull JNull JNull None.

Definition installed_world : World :=
  with_client (with_session (fun _ => installed_session)) new_world.

(** A company whose session timeout is the largest safe integer, 2^53 - 1. *)
Definition long_lived_payload : JsVal :=
  JObj {[ "UserCompany" :=
            JObj {[ "id" := JNum 42; "session_timeout" := JNum 9007199254740991 ]} ]}.

(** Sample payloads: a company, and an OAuth key whose granting user has no id. *)
Definition company_payload : JsVal :=
  JObj {[ "UserCompany" := JObj {[ "id" := JNum 42; "session_timeout" := JNum 3600 ]} ]}.

Definition oauth_info : JsVal :=
  JObj {[ "id" := JNum 5;
          "requested_by_user" :=
            JObj {[ "UserPerson" := JObj {[ "id" := JNum 8; "session_timeout" := JNum 600 ]} ]};
          "granted_by_user" :=
            JObj {[ "UserPerson" := JObj {[ "session_timeout" := JNum 900 ]} ]} ]}.

Definition oauth_payload : JsVal := JObj {[ "UserApiKey" := oauth_info ]}.

(** What the session endpoint answers for a principal. *)
Definition session_response (user_info : JsVal) : JsVal :=
  JObj {[ "id" := JNum 7;
          "token" := JObj {[ "id" := JNum 11;
                             "created" := JStr "2019-06-01 12:00:00.000000";
                             "token" := JStr "session-token" ]};
          "user_info" := user_info ]}.

(** A client with a session that expires in an hour. *)
Definition session_world : World :=
  with_client
    (with_session
       (fun s => set_sessionTimeout (Finite 3600000)
                   (set_sessionExpiryTime (Some (Some 1559394000000)) s)))
    new_world.

(** A client whose session of two minutes has just been created, and one
    whose session of an hour expires in 100 seconds. *)
Definition fresh_short_world : World :=
  with_client
    (with_session
       (fun s => set_sessionTimeout (Finite 120000)
                   (set_sessionExpiryTime (Some (Some (1559390400500 + 120000))) s)))
    new_world.

Definition late_world : World :=
  with_client
    (with_session
       (fun s => set_sessionTimeout (Finite 3600000)
                   (set_sessionExpiryTime (Some (Some (1559390400500 + 100000))) s)))
    new_world.

(** ** Auxiliary notions of the proofs *)

(** A run that comes after the calls [tr]. *)
Definition prefixed {A} (tr : list (Call * Outcome)) (r : Run A) : Run A :=
  mkRun (run_final r) (run_world r) (tr ++ run_trace r).

(** The replies as [started act p] hands them to [p]: [act] has happened
    when the first call is answered. *)
Definition shifted (act : World -> World) (replies : list Reply) : list Reply :=
  match replies with
  | [] => []
  | r :: replies' => mkReply (reply_outcome r) (fun w => reply_effect r (act w)) :: replies'
  end.

(** The world of [generateSession] while its request is in flight, and the
    world of [registerSession] once it has stored the promise. *)
Definition fetching (w : World) : World :=
  add_log (LogDebug " === Attempting to fetch session") w.

Definition marked (w : World) : World :=
  with_client (set_fetchingNewSession (Some (next_promise w))) (take_promise w).

(** The object that [generateSession] throws. *)
Definition session_creation_failed (errorCode error : JsVal) : JsVal :=
  JObj {[ "errorCode" := errorCode; "error" := error ]}.


(** The session timeout of a principal: its own when it is not OAuth, the one
    of the requested-by principal when it is. *)
Definition principal_timeout (user_info : JsVal) : Res JsVal :=
  match getUserType user_info with
  | Thr e => Thr e
  | Val u =>
      if isOAuth u then
        match get_prop (info u) "requested_by_user" with
        | Thr e => Thr e
        | Val requested =>
            match getUserType requested with
            | Thr e => Thr e
            | Val ru => get_prop (info ru) "session_timeout"
            end
        end
      else get_prop (info u) "session_timeout"
  end.

(** The answer leaves a part of the world as it is. *)
Definition keeps {A} (part : World -> A) (r : Reply) : Prop :=
  forall w, part (reply_effect r w) = part w.

(** ** The operations of the client *)

(** The asynchronous public methods, with their arguments. *)
Inductive Operation : Type :=
| Op_run (apiKey allowedIps environment encryptionKey : JsVal)
| Op_install
| Op_registerDevice (deviceName : JsVal)
| Op_registerSession
| Op_createCredentials
| Op_checkCredentialStatus (uuid : string)
| Op_destroySession
| Op_destroyApiSession
| Op_getUser (userType : string) (updated : bool)
| Op_getUsers (updated : bool).

Definition perform (host : Host) (op : Operation) : Prog JsVal :=
  match op with
  | Op_run apiKey allowedIps environment encryptionKey =>
      run host apiKey allowedIps environment encryptionKey
  | Op_install => install host
  | Op_registerDevice deviceName => registerDevice host deviceName
  | Op_registerSession => registerSession host
  | Op_createCredentials => createCredentials
  | Op_checkCredentialStatus uuid => checkCredentialStatus uuid
  | Op_destroySession => destroySession host
  | Op_destroyApiSession => destroyApiSession
  | Op_getUser userType updated => getUser host userType updated
  | Op_getUsers updated => getUsers host updated
  end.

(** The expiry timer goes off: the callback runs and returns, and the chain
    that it left running is answered. *)
Definition timer_fired (host : Host) : Prog JsVal :=
  fired ← sync (expiryTimerCallback host);
  match fired.2 with
  | Some chain => resume chain;; mret fired.1
  | None => mret fired.1
  end.

(** The calls of a run that failed, with their errors. *)
Definition rejections (tr : list (Call * Outcome)) : list (Call * JsVal) :=
  omap (fun '(c, o) =>
          match o with
          | Rejected e => Some (c, e)
          | Resolved _ => None
          end) tr.







(** The error is passed on as it is. *)
Definition unchanged (c : Call) (w : World) (thrown e : JsVal) : Prop := thrown = e.

(** Every failure of a call of [p] makes [p] throw, and what it throws is
    related by [Q] to the call that failed last, the state in which [p] ends
    and the error of that call. *)
Definition propagates {A} (Q : Call -> World -> JsVal -> JsVal -> Prop) (p : Prog A) : Prop :=
  forall replies w c e r,
    last (rejections (run_trace (exec p replies w))) = Some (c, e) ->
    run_final (exec p replies w) = Settled r ->
    exists thrown, r = Thr thrown /\ Q c (run_world (exec p replies w)) thrown e.



(** A client with a valid session. *)
Definition valid_session : Session :=
  set_sessionExpiryTimeChecker (Some 0%nat)
    (set_sessionToken (JStr "session-token")
       (set_sessionId (JNum 7)
          (set_sessionTimeout (Finite 3600000)
             (set_sessionExpiryTime (Some (Some 1559394000000))
                (set_deviceId (JNum 3) installed_session))))).

Definition valid_world : World :=
  mkWorld (with_session (fun _ => valid_session) new_client) 1559390400500
          {[ 0%nat := mkTimer ExpiryTimerCallback (Finite 3584500) 1559390400500 ]}
          1 0 [].

(** A client whose session holds the handle of an armed timer. *)
Definition armed_world : World :=
  mkWorld (with_session (set_sessionExpiryTimeChecker (Some 0%nat)) new_client)
          1559390400500
          {[ 0%nat := mkTimer ExpiryTimerCallback (Finite 285000) 1559390400000 ]}
          1 0 [].

(** C6 as the spec states it: disabled or in CI, [setExpiryTimer] schedules
    nothing and the timer of the session is cancelled. *)
Definition cancels_when_disabled (host : Host) (w : World) (shortTimeout : bool) : Prop :=
  env_ci host = true \/ keepAlive (client w) = false ->
  let w' := (setExpiryTimer host shortTimeout w).2 in
  next_timer w' = next_timer w
  /\ forall h, sessionExpiryTimeChecker (session (client w)) = Some h -> timers w' !! h = None.

(** How the callers on the event loop stand. *)
Definition outcome_of {A} (t : Task A) : option (Res A) :=
  match t with
  | Done r => Some r
  | Waiting _ _ => None
  end.

Definition outcomes (l : Loop) : list (option (Res JsVal)) :=
  outcome_of <$> loop_tasks l.


(** The parts of the sample OAuth key as [getUserType] returns them. *)
Definition oauth_user : UserType := mkUserType oauth_info "UserApiKey" true.



(** What the installation endpoint answers. *)
Definition installation_response : JsVal :=
  JObj {[ "serverPublicKey" := JStr "server-pem";
          "token" := JObj {[ "token" := JStr "install-token";
                             "created" := JNum 1559390000000;
                             "updated" := JNum 1559390000000 ]} ]}.

(** * Further notions: parts of the state, invariants, requests *)

(** ** What a program leaves alone *)

(** [p] leaves [part] of the world as it is, whenever the answers to its
    calls do. *)
Definition frames {A X} (part : World -> X) (p : Prog A) : Prop :=
  forall replies w,
    Forall (keeps part) replies ->
    part (run_world (exec p replies w)) = part w.

(** The state of the client in parts. *)
Inductive Part : Type :=
| P_credentials   (* apiKey, allowedIps *)
| P_switches      (* keepAlive, errorCodes *)
| P_key           (* Session.publicKey *)
| P_installation  (* server key, install token, install dates *)
| P_device        (* Session.deviceId *)
| P_session       (* session id, token, token id, expiry, timeout, OAuth flag *)
| P_userInfo      (* Session.userInfo *)
| P_timers        (* the timers of the host and the handle in the session *)
| P_marker        (* fetchingNewSession and the promises made *)
| P_clock.        (* the time *)

Inductive View : Type :=
| V_credentials (apiKey allowedIps : JsVal)
| V_switches (keepAlive : bool) (errorCodes : JsVal)
| V_key (publicKey : JsVal)
| V_installation (i : JsVal * JsVal * JsVal * option Date * option Date)
| V_device (deviceId : JsVal)
| V_session (sessionId sessionToken sessionTokenId : JsVal) (sessionExpiryTime : option Date)
            (sessionTimeout : Num) (isOAuthKey : bool)
| V_userInfo (userInfo : JsVal)
| V_timers (timers : gmap nat Timer) (next_timer : nat) (sessionExpiryTimeChecker : option nat)
| V_marker (fetchingNewSession : option nat) (next_promise : nat)
| V_clock (now : Z).

Definition view (part : Part) (w : World) : View :=
  let c := client w in
  let s := session c in
  match part with
  | P_credentials => V_credentials (apiKey c) (allowedIps c)
  | P_switches => V_switches (keepAlive c) (errorCodes c)
  | P_key => V_key (publicKey s)
  | P_installation => V_installation (installation s)
  | P_device => V_device (deviceId s)
  | P_session =>
      V_session (sessionId s) (sessionToken s) (sessionTokenId s) (sessionExpiryTime s)
                (sessionTimeout s) (isOAuthKey s)
  | P_userInfo => V_userInfo (userInfo s)
  | P_timers => V_timers (timers w) (next_timer w) (sessionExpiryTimeChecker s)
  | P_marker => V_marker (fetchingNewSession c) (next_promise w)
  | P_clock => V_clock (now w)
  end.

(** The parts that the code of an operation assigns to; everything else of
    the state it can only see change through the answers to its calls. *)
Definition writes (op : Operation) (part : Part) : bool :=
  match op, part with
  | Op_run _ _ _ _, (P_credentials | P_timers) => true
  | Op_install, P_installation => true
  | Op_registerDevice _, (P_installation | P_device) => true
  | Op_registerSession, (P_session | P_userInfo | P_timers | P_marker) => true
  | (Op_destroySession | Op_destroyApiSession), P_timers => true
  | (Op_getUser _ true | Op_getUsers true), P_userInfo => true
  | _, _ => false
  end.

(** ** One expiry timer *)

(** Every timer that is armed is the one whose handle the session holds: at
    most one expiry timer is outstanding, and [clearExpiryTimer] reaches it. *)
Definition timer_owned (w : World) : Prop :=
  forall h t, timers w !! h = Some t -> sessionExpiryTimeChecker (session (client w)) = Some h.

(** [p] keeps the invariant [I], whenever the answers to its calls do. *)
Definition preserves {A} (I : World -> Prop) (p : Prog A) : Prop :=
  forall replies w,
    Forall (fun r => forall w, I w -> I (reply_effect r w)) replies ->
    I w ->
    I (run_world (exec p replies w)).

(** The ways into the client: a call of an operation, and the expiry timer
    going off. *)
Inductive Entry : Type :=
| Called (op : Operation)
| TimerFired.

Definition enter (host : Host) (e : Entry) : Prog JsVal :=
  match e with
  | Called op => perform host op
  | TimerFired => timer_fired host
  end.

(** ** The three stages of the handshake *)

(** The check that guards an operation of the handshake. *)
Definition stage_verified (host : Host) (op : Operation) (w : World) : bool :=
  match op with
  | Op_install => verifyInstallation host (session (client w)) (now w)
  | Op_registerDevice _ => verifyDeviceInstallation host (session (client w)) (now w)
  | Op_registerSession => verifySessionInstallation host (session (client w)) (now w)
  | _ => false
  end.

(** The error that [install] throws without a public key. *)
Definition no_public_key_error : JsVal :=
  js_Error
    "No public key is set yet, make sure you setup an encryption key with BunqJSClient->setup()".

(** A client whose session has no key pair yet. *)
Definition keyless_world : World :=
  with_client
    (with_session
       (fun _ => mkSession JNull JNull JNull JNull None None JNull false (JObj ∅) None
                           (Finite 0) JNull JNull JNull None))
    new_world.

(** What [generateSession] makes of the timeout of the principal and of the
    creation time of the token: the timeout in milliseconds, and the expiry,
    the creation time moved on by that timeout. *)
Definition timeout_ms (host : Host) (timeout : JsVal) : Num :=
  num_mul (to_number host timeout) (Finite 1000).

Definition expiry_of (host : Host) (created timeout : JsVal) : Date :=
  time_clip (num_add (getTime (new_Date host (JStr (to_string host created +:+ " UTC"))))
                     (timeout_ms host timeout)).


(** ** Arguments and answers of the remaining operations *)

(** [destroySession] deletes the session at the server only if installation,
    device and session are all verified. *)
Definition deletes_remotely (host : Host) (w : World) : bool :=
  verifyInstallation host (session (client w)) (now w)
  && verifyDeviceInstallation host (session (client w)) (now w)
  && verifySessionInstallation host (session (client w)) (now w).

(** The two operations on credential requests. *)
Definition credential_operation (op : Operation) : bool :=
  match op with
  | Op_createCredentials | Op_checkCredentialStatus _ => true
  | _ => false
  end.

(** The request of a credential operation. *)
Definition credential_request (op : Operation) : Call :=
  match op with
  | Op_checkCredentialStatus uuid =>
      Limiter_run "/credential-password-ip-request" "GET"
        ("https://api.tinker.bunq.com/v1/credential-password-ip-request/" +:+ uuid)
  | _ =>
      Limiter_run "/credential-password-ip-request" "POST"
        "https://api.tinker.bunq.com/v1/credential-password-ip-request"
  end.

(** The call with which [run] sets up the session: arguments left out take
    their defaults. *)
Definition setup_request (apiKey allowedIps environment encryptionKey : JsVal) : Call :=
  Session_setup apiKey
    (if defined allowedIps then allowedIps else js_array [])
    (if defined environment then environment else JStr "SANDBOX")
    (if defined encryptionKey then encryptionKey else JBool false).

(** The client once [run] has taken its arguments. *)
Definition configured (apiKey allowedIps : JsVal) (w : World) : World :=
  with_client (set_allowedIps (if defined allowedIps then allowedIps else js_array []))
    (with_client (set_apiKey apiKey) (add_log (LogDebug "bunqJSClient run") w)).

(** * Verified properties *)

(** ** The model at work *)

Example install_example :
  let R := exec (install sample_host)
             [resolves installation_response; resolves (JStr "server-key");
              resolves JUndefined] new_world in
  run_final R = Settled (Val (JBool true))
  /\ (run_trace R).*1
     = [Api_installation_add; publicKeyFromPem (JStr "server-pem"); Session_storeSession]
  /\ installation (session (client (run_world R)))
     = (JStr "server-pem", JStr "server-key", JStr "install-token",
        Some (Some 1559390000000), Some (Some 1559390000000)).
Proof. vm_compute. repeat split; reflexivity. Qed.

Example registerSession_example :
  let R := exec (registerSession sample_host)
             [resolves (session_response company_payload); resolves JUndefined]
             installed_world in
  run_final R = Settled (Val (JBool true))
  /\ sessionExpiryTime (session (client (run_world R))) = Some (Some 1559394000000)
  /\ map_to_list (timers (run_world R))
     = [(0%nat, mkTimer ExpiryTimerCallback (Finite 3584500) 1559390400500)]
  /\ fetchingNewSession (client (run_world R)) = None.
Proof. vm_compute. repeat split; reflexivity. Qed.

(** ** Reading and writing properties *)

Lemma get_prop_not_nullish (v : JsVal) (p : string) :
  nullish v = false -> exists x, get_prop v p = Val x.
Proof.
  destruct v; simpl; intros H; try discriminate; eauto.
Qed.

Lemma defined_spec (v : JsVal) : defined v = true <-> v <> JUndefined.
Proof.
  destruct v; simpl; split; intros H; congruence.
Qed.

(** ** Running programs *)

Ltac sync_eval :=
  cbv [mbind Sync_bind sync_bind mret Sync_ret sync_ret pure read modify throw
       the_session update_session update_client logger_debug logger_error].

Ltac prog_eval :=
  cbn [exec prog_bind try_catch started sync await mbind Prog_bind mret Prog_ret
       traced run_final run_world run_trace].

Ltac run_eval :=
  cbn [run_final run_trace run_world length drop prefixed traced app].

Lemma prefixed_nil {A} (r : Run A) : prefixed [] r = r.
Proof. destruct r; reflexivity. Qed.

Lemma exec_bind {A B} (p : Prog A) (f : A -> Prog B) (replies : list Reply) (w : World) :
  exec (p ≫= f) replies w =
  let R := exec p replies w in
  match run_final R with
  | Settled (Val a) =>
      prefixed (run_trace R) (exec (f a) (drop (length (run_trace R)) replies) (run_world R))
  | Settled (Thr e) => mkRun (Settled (Thr e)) (run_world R) (run_trace R)
  | Pending c => mkRun (Pending c) (run_world R) (run_trace R)
  end.
Proof.
  revert replies w. induction p as [a|e|k IH|w' k IH|c k IH]; intros replies w; simpl.
  - symmetry. apply prefixed_nil.
  - reflexivity.
  - apply IH.
  - apply IH.
  - destruct replies as [|r replies]; simpl; [reflexivity|].
    unfold mbind, Prog_bind in IH. rewrite IH. cbv zeta.
    destruct (exec (k (reply_outcome r)) replies (reply_effect r w)) as [[[a|e]|c'] w2 tr];
      reflexivity.
Qed.

Lemma exec_try_catch {A} (p : Prog A) (h : JsVal -> Prog A) (replies : list Reply) (w : World) :
  exec (try_catch p h) replies w =
  let R := exec p replies w in
  match run_final R with
  | Settled (Thr e) =>
      prefixed (run_trace R) (exec (h e) (drop (length (run_trace R)) replies) (run_world R))
  | _ => R
  end.
Proof.
  revert replies w. induction p as [a|e|k IH|w' k IH|c k IH]; intros replies w; simpl.
  - reflexivity.
  - symmetry. apply prefixed_nil.
  - apply IH.
  - apply IH.
  - destruct replies as [|r replies]; simpl; [reflexivity|].
    rewrite IH. cbv zeta.
    destruct (exec (k (reply_outcome r)) replies (reply_effect r w)) as [[[a|e]|c'] w2 tr];
      reflexivity.
Qed.

Lemma exec_started {A} (act : World -> World) (p : Prog A) replies w :
  exec (started act p) replies w =
  let R := exec p (shifted act replies) w in
  match run_trace R with
  | [] => mkRun (run_final R) (act (run_world R)) []
  | _ => R
  end.
Proof.
  revert w. induction p as [a|e|k IH|w' k IH|c k IH]; intros w; simpl; auto.
  destruct replies as [|r replies]; simpl; reflexivity.
Qed.

Lemma exec_sync {A} (m : Sync A) replies w :
  exec (sync m) replies w =
  match m w with
  | (Val a, w') => mkRun (Settled (Val a)) w' []
  | (Thr e, w') => mkRun (Settled (Thr e)) w' []
  end.
Proof. unfold sync; simpl. destruct (m w) as [[a|e] w']; reflexivity. Qed.

Lemma exec_await c r replies w :
  exec (await c) (r :: replies) w =
  mkRun (Settled match reply_outcome r with Resolved v => Val v | Rejected e => Thr e end)
        (reply_effect r w) [(c, reply_outcome r)].
Proof. simpl. destruct (reply_outcome r); reflexivity. Qed.

Lemma exec_await_nil c w :
  exec (await c) [] w = mkRun (Pending c) w [].
Proof. reflexivity. Qed.

Lemma exec_ret {A} (a : A) replies w :
  exec (mret a) replies w = mkRun (Settled (Val a)) w [].
Proof. reflexivity. Qed.

Lemma exec_throw {A} (e : JsVal) replies w :
  exec (@Throw A e) replies w = mkRun (Settled (Thr e)) w [].
Proof. reflexivity. Qed.

(** ** The expiry timer and a successful session request *)

Lemma setExpiryTimer_frame host b w :
  let w' := (setExpiryTimer host b w).2 in
  now w' = now w
  /\ keepAlive (client w') = keepAlive (client w)
  /\ fetchingNewSession (client w') = fetchingNewSession (client w)
  /\ set_sessionExpiryTimeChecker (sessionExpiryTimeChecker (session (client w)))
       (session (client w')) = session (client w).
Proof.
  unfold setExpiryTimer. destruct (env_ci host).
  { sync_eval. cbn. destruct w as [[? ? [] ? ? ?] ? ? ? ? ?]; auto. }
  sync_eval. destruct (keepAlive (client w)) eqn:K; cbn [negb].
  - destruct (sessionExpiryTime (session (client w))) as [expiry|].
    + unfold clearExpiryTimer. sync_eval.
      destruct (sessionExpiryTimeChecker (session (client w))) eqn:E; cbn;
        destruct w as [[? ? [] ? ? ?] ? ? ? ? ?]; cbn in *; subst; auto.
    + cbn. destruct w as [[? ? [] ? ? ?] ? ? ? ? ?]; auto.
  - unfold clearExpiryTimer. sync_eval.
    destruct (sessionExpiryTimeChecker (session (client w))) eqn:E; cbn;
        destruct w as [[? ? [] ? ? ?] ? ? ? ? ?]; cbn in *; subst; auto.
Qed.

Lemma setExpiryTimer_arms host w expiry :
  env_ci host = false ->
  keepAlive (client w) = true ->
  sessionExpiryTime (session (client w)) = Some expiry ->
  let w' := (setExpiryTimer host false w).2 in
  sessionExpiryTimeChecker (session (client w')) = Some (next_timer w)
  /\ timers w' !! next_timer w
     = Some (mkTimer ExpiryTimerCallback
               (num_sub (num_sub (getTime expiry) (Finite (now w))) (Finite 15000)) (now w)).
Proof.
  intros Hci Hka He. unfold setExpiryTimer. rewrite Hci.
  sync_eval. rewrite Hka, He. cbn [negb]. unfold clearExpiryTimer. sync_eval.
  destruct (sessionExpiryTimeChecker (session (client w))) as [h|]; cbn;
    rewrite lookup_insert_eq; auto.
Qed.

(** [setExpiryTimer] does not throw. *)
Lemma setExpiryTimer_returns host b w : exists v, (setExpiryTimer host b w).1 = Val v.
Proof.
  unfold setExpiryTimer, clearExpiryTimer. destruct (env_ci host); [eexists; reflexivity|].
  sync_eval. destruct (keepAlive (client w)); cbn [negb].
  - destruct (sessionExpiryTime (session (client w)));
      [destruct (sessionExpiryTimeChecker (session (client w)))|]; eexists; reflexivity.
  - destruct (sessionExpiryTimeChecker (session (client w))); eexists; reflexivity.
Qed.

(** ** The expiry timer going off *)

(** With keepAlive on the callback returns undefined at once; the refresh
    that it leaves running waits for the users, and goes on as the chain
    [getUsers(true).then(...).catch(...)] does. *)
Lemma expiryTimerCallback_on host w :
  keepAlive (client w) = true ->
  exists k,
    expiryTimerCallback host w
    = (Val (JUndefined, Some (Waiting Api_user_list k)), (setExpiryTimer host true w).2)
    /\ forall replies w',
         exec (Await Api_user_list k) replies w' = exec (refresh_chain host) replies w'.
Proof.
  intros Hk. unfold expiryTimerCallback, detached, refresh_chain, getUsers, refresh_users.
  sync_eval. rewrite Hk. cbn [negb].
  cbn [advance prog_bind try_catch sync await mbind Prog_bind mret Prog_ret].
  destruct (setExpiryTimer_returns host true w) as [v Hv].
  destruct (setExpiryTimer host true w) as [res w1]. cbn [fst snd] in *. subst res.
  eexists. split; [reflexivity|]. intros replies w'. reflexivity.
Qed.

Lemma expiryTimerCallback_off host w :
  keepAlive (client w) = false ->
  expiryTimerCallback host w = (Val (JBool false, None), (clearExpiryTimer w).2).
Proof.
  intros Hk. unfold expiryTimerCallback, clearExpiryTimer. sync_eval. rewrite Hk. cbn [negb].
  destruct (sessionExpiryTimeChecker (session (client w))); reflexivity.
Qed.

Lemma timer_fired_on host replies w :
  keepAlive (client w) = true ->
  exec (timer_fired host) replies w
  = exec (refresh_chain host;; mret JUndefined) replies (setExpiryTimer host true w).2.
Proof.
  intros Hk. destruct (expiryTimerCallback_on host w Hk) as (k & Hc & Hx).
  unfold timer_fired. rewrite exec_bind, exec_sync, Hc. cbv zeta.
  cbn [run_final run_world run_trace fst snd resume]. rewrite drop_0.
  rewrite !exec_bind, Hx. unfold prefixed. cbn [app].
  destruct (exec (refresh_chain host) replies (setExpiryTimer host true w).2)
    as [[[[]|e]|c] w' tr]; reflexivity.
Qed.

Lemma timer_fired_off host replies w :
  keepAlive (client w) = false ->
  exec (timer_fired host) replies w
  = mkRun (Settled (Val (JBool false))) (clearExpiryTimer w).2 [].
Proof.
  intros Hk. unfold timer_fired.
  rewrite exec_bind, exec_sync, (expiryTimerCallback_off host w Hk). reflexivity.
Qed.

Ltac no_success := intros <- ? ?; discriminate.

Ltac session_tail token created user_info u timeout :=
  match goal with
  | |- context [get_prop ?response "id"] =>
      destruct (get_prop response "id") eqn:?; [|no_success]
  end;
  match goal with
  | |- context [get_prop ?token "token"] =>
      destruct (get_prop token "token") eqn:?; [|no_success];
      destruct (get_prop token "id") eqn:?; [|no_success]
  end;
  prog_eval;
  match goal with
  | |- context [match ?replies with [] => _ | _ :: _ => _ end] =>
      destruct replies as [|? ?]; [no_success|]
  end;
  match goal with
  | |- context [reply_outcome ?r2] =>
      destruct (reply_outcome r2) eqn:?; prog_eval; [|no_success]
  end;
  match goal with
  | |- context [setExpiryTimer ?h ?b ?x] =>
      destruct (setExpiryTimer h b x) as [[?|?] ?] eqn:?; prog_eval; [|no_success]
  end;
  match goal with
  | Et : setExpiryTimer _ _ (reply_effect ?r2 ?W) = _,
    Hq : reply_outcome ?r2 = Resolved ?stored |- _ =>
      intros <- ? _;
      exists token, created, user_info, u, timeout, r2; eexists; exists stored, W;
      repeat match goal with |- _ /\ _ => split end;
      try assumption; try reflexivity;
      try exact (eq_sym (f_equal snd Et))
  end.

(** What a successful [generateSession] has done. *)
Lemma generateSession_success host w r1 replies response R :
  reply_outcome r1 = Resolved response ->
  exec (generateSession host) (r1 :: replies) w = R ->
  forall v, run_final R = Settled (Val v) ->
  exists token created user_info u timeout r2 rest stored w1,
    get_prop response "token" = Val token
    /\ get_prop token "created" = Val created
    /\ get_prop response "user_info" = Val user_info
    /\ getUserType user_info = Val u
    /\ principal_timeout user_info = Val timeout
    /\ replies = r2 :: rest
    /\ reply_outcome r2 = Resolved stored
    /\ run_world R = (setExpiryTimer host false (reply_effect r2 w1)).2
    /\ run_trace R = [(Api_sessionServer_add, Resolved response);
                      (Session_storeSession, Resolved stored)]
    /\ sessionTimeout (session (client w1)) = num_mul (to_number host timeout) (Finite 1000)
    /\ sessionExpiryTime (session (client w1))
       = Some (time_clip
                 (num_add (getTime (new_Date host (JStr (to_string host created +:+ " UTC"))))
                          (num_mul (to_number host timeout) (Finite 1000))))
    /\ isOAuthKey (session (client w1))
       = (if isOAuth u then isOAuthKey (session (client (reply_effect r1 (fetching w))))
          else false).
Proof.
  intros H1. unfold generateSession, fetching.
  prog_eval. sync_eval. prog_eval. rewrite H1. prog_eval.
  set (w0 := reply_effect r1 _).
  sync_eval.
  destruct (get_prop response "token") as [token|] eqn:Etoken; [|no_success].
  destruct (get_prop token "created") as [created|] eqn:Ecreated; [|no_success].
  destruct (get_prop response "user_info") as [user_info|] eqn:Eui; [|no_success].
  destruct (getUserType user_info) as [u|] eqn:Eu; [|no_success].
  destruct (isOAuth u) eqn:Eo; cbn [negb].
  - (* OAuth *)
    unfold parseOauthUser. sync_eval.
    destruct (get_prop (info u) "requested_by_user") as [rq|] eqn:Erq; [|no_success].
    destruct (getUserType rq) as [ru|] eqn:Eru; [|no_success].
    destruct (get_prop (info u) "granted_by_user") as [gr|] eqn:Egr; [|no_success].
    destruct (getUserType gr) as [gu|] eqn:Egu; [|no_success].
    destruct (get_prop (info ru) "session_timeout") as [timeout|] eqn:Eto; [|no_success].
    destruct (get_prop (info gu) "id") as [gid|] eqn:Egid; [|no_success].
    destruct (truthy gid) eqn:Tg; cbn [negb]; cbv beta iota.
    + match goal with
      | |- context [set_prop ?o "UserApiKey" ?x] =>
          destruct (set_prop o "UserApiKey" x) eqn:Eset; [|no_success]
      end.
      session_tail token created user_info u timeout.
      * unfold principal_timeout. rewrite Eu, Eo, Erq, Eru. exact Eto.
      * rewrite Eo. reflexivity.
    + destruct (get_prop (info u) "id") as [oid|] eqn:Eoid; [|no_success].
      destruct (set_prop (info gu) "id" oid) as [ginfo|] eqn:Eginfo; [|no_success].
      match goal with
      | |- context [set_prop ?o "UserApiKey" ?x] =>
          destruct (set_prop o "UserApiKey" x) eqn:Eset; [|no_success]
      end.
      session_tail token created user_info u timeout.
      * unfold principal_timeout. rewrite Eu, Eo, Erq, Eru. exact Eto.
      * rewrite Eo. reflexivity.
  - (* not OAuth *)
    destruct (get_prop (info u) "session_timeout") as [timeout|] eqn:Eto; [|no_success].
    session_tail token created user_info u timeout.
    + unfold principal_timeout. rewrite Eu, Eo. exact Eto.
    + rewrite Eo. reflexivity.
Qed.

(** ** C1: two callers of [registerSession] *)

(** A caller that finds the session invalid sends a request of its own,
    whatever [fetchingNewSession] holds. *)
Lemma registerSession_invoke (host : Host) (l : Loop) :
  verifySessionInstallation host (session (client (loop_world l))) (now (loop_world l)) = false ->
  let l' := invoke (registerSession host) l in
  loop_requests l' = loop_requests l ++ [Api_sessionServer_add]
  /\ waiting_on l' = waiting_on l ++ [Api_sessionServer_add]
  /\ loop_world l' = marked (fetching (loop_world l)).
Proof.
  intros Hv. unfold invoke, registerSession, generateSession.
  cbn [advance prog_bind try_catch started sync await mbind Prog_bind mret Prog_ret].
  sync_eval.
  cbn [advance prog_bind try_catch started sync await mbind Prog_bind mret Prog_ret].
  rewrite Hv. cbn [negb].
  cbn [advance prog_bind try_catch started sync await mbind Prog_bind mret Prog_ret].
  sync_eval.
  cbn [advance prog_bind try_catch started sync await mbind Prog_bind mret Prog_ret
       loop_requests loop_world loop_tasks request_of].
  unfold waiting_on. cbn [loop_tasks]. rewrite flat_map_app. cbn.
  repeat split.
Qed.

(** C1: the code at the failing input.  Two callers, one after the other
    while the session is invalid: two requests are sent and both are in
    flight; the second promise overwrites the first; when the first caller is
    done the marker is cleared although the second request is still in
    flight; and the two callers get different outcomes. *)
Theorem registerSession_not_single_flight :
  let l2 := invoke (registerSession sample_host)
              (invoke (registerSession sample_host) (mkLoop new_world [] [])) in
  let l3 := settle 0 (Resolved JUndefined)
              (settle 0 (Resolved (session_response company_payload)) l2) in
  let l4 := settle 1 (Rejected network_error) l3 in
  loop_requests l2 = [Api_sessionServer_add; Api_sessionServer_add]
  /\ waiting_on l2 = [Api_sessionServer_add; Api_sessionServer_add]
  /\ fetchingNewSession (client (loop_world l2)) = Some 1%nat
  /\ outcomes l3 = [Some (Val (JBool true)); None]
  /\ waiting_on l3 = [Api_sessionServer_add]
  /\ fetchingNewSession (client (loop_world l3)) = None
  /\ outcomes l4
     = [Some (Val (JBool true));
        Some (Thr (session_creation_failed (JStr "INSTALLATION_HAS_SESSION") network_error))].
Proof.
  vm_compute. repeat split; reflexivity.
Qed.

(** ** C2: a rejected device registration *)

Lemma installation_destroyed (s : Session) :
  installation (destroy_installation s) = (JNull, JNull, JNull, None, None).
Proof. reflexivity. Qed.

(** C2 (amended).  A device registration that fails with the error [e].
    - [e] is null or undefined: the catch block fails when it reads
      [e.response]; [registerDevice] throws that TypeError and has written
      nothing.
    - [e] has no (truthy) response, or a response whose status is not
      exactly 400 (a 404 included): [registerDevice] throws [e] again and has
      written nothing.
    - the status is 400: the server public key (PEM and parsed), the install
      token and the two install timestamps are set to null, and
      [setupKeypair(true)] is called.  If that fails, [registerDevice] throws
      the error of [setupKeypair] and nothing is stored.  Otherwise
      [storeSession()] is called; if that fails, [registerDevice] throws its
      error; otherwise it throws [e] again.  The installation is null at the
      end as long as the answers leave it alone. *)
Theorem registerDevice_rejected (host : Host) (w : World) (deviceName : JsVal)
    (r1 : Reply) (replies : list Reply) (e : JsVal) :
  verifyDeviceInstallation host (session (client w)) (now w) = false ->
  reply_outcome r1 = Rejected e ->
  let R := exec (registerDevice host deviceName) (r1 :: replies) w in
  let request := (device_request deviceName w, Rejected e) in
  let wiped := with_client (with_session destroy_installation) (reply_effect r1 w) in
  (forall unreadable, get_prop e "response" = Thr unreadable ->
     R = mkRun (Settled (Thr unreadable)) (reply_effect r1 w) [request])
  /\ (forall response, get_prop e "response" = Val response -> bad_request e = false ->
     R = mkRun (Settled (Thr e)) (reply_effect r1 w) [request])
  /\ (bad_request e = true ->
     installation (session (client wiped)) = (JNull, JNull, JNull, None, None)
     /\ match replies with
        | [] => R = mkRun (Pending (Session_setupKeypair true)) wiped [request]
        | r2 :: rest =>
            match reply_outcome r2 with
            | Rejected e2 =>
                R = mkRun (Settled (Thr e2)) (reply_effect r2 wiped)
                          [request; (Session_setupKeypair true, Rejected e2)]
            | Resolved v2 =>
                match rest with
                | [] =>
                    R = mkRun (Pending Session_storeSession) (reply_effect r2 wiped)
                              [request; (Session_setupKeypair true, Resolved v2)]
                | r3 :: _ =>
                    R = mkRun (Settled (Thr match reply_outcome r3 with
                                            | Resolved _ => e
                                            | Rejected e3 => e3
                                            end))
                              (reply_effect r3 (reply_effect r2 wiped))
                              [request; (Session_setupKeypair true, Resolved v2);
                               (Session_storeSession, reply_outcome r3)]
                end
            end
        end
     /\ (Forall (keeps (fun w => installation (session (client w)))) replies ->
         installation (session (client (run_world R))) = (JNull, JNull, JNull, None, None))).
Proof.
  intros Hv Hr. unfold registerDevice, device_request, bad_request.
  prog_eval. sync_eval. prog_eval. rewrite Hv. cbn [negb]. prog_eval.
  rewrite Hr. prog_eval.
  destruct (get_prop e "response") as [response|t] eqn:He; prog_eval.
  2:{ split; [intros ? [= <-]; reflexivity|]. split; [discriminate|discriminate]. }
  split; [discriminate|].
  destruct (truthy response) eqn:T; cbn [negb andb]; prog_eval.
  2:{ split; [intros ? _ _; reflexivity|discriminate]. }
  destruct (get_prop_not_nullish response "status") as [status Hs].
  { destruct response; try discriminate; reflexivity. }
  rewrite Hs. prog_eval.
  destruct (is_num 400 status) eqn:H400; prog_eval.
  2:{ split; [intros ? _ _; reflexivity|discriminate]. }
  split; [discriminate|]. intros _.
  sync_eval. prog_eval.
  split; [reflexivity|].
  destruct replies as [|r2 rest]; prog_eval.
  { split; [reflexivity|]. intros _. reflexivity. }
  destruct (reply_outcome r2) as [v2|e2] eqn:H2; prog_eval.
  2:{ split; [reflexivity|]. intros K. apply Forall_cons in K as [K2 _].
      rewrite K2. reflexivity. }
  destruct rest as [|r3 rest]; prog_eval.
  { split; [reflexivity|]. intros K. apply Forall_cons in K as [K2 _].
    rewrite K2. reflexivity. }
  assert (K : Forall (keeps (fun w => installation (session (client w)))) (r2 :: r3 :: rest) ->
              installation (session (client (reply_effect r3 (reply_effect r2
                (with_client (with_session destroy_installation) (reply_effect r1 w))))))
              = (JNull, JNull, JNull, None, None)).
  { intros K. apply Forall_cons in K as [K2 K]. apply Forall_cons in K as [K3 _].
    rewrite K3, K2. reflexivity. }
  destruct (reply_outcome r3) as [v3|e3] eqn:H3; prog_eval; (split; [reflexivity|exact K]).
Qed.

Lemma registerDevice_rejected_witness :
  let R := exec (registerDevice sample_host JUndefined)
                [rejects (rejection 400); resolves (JBool true); resolves JUndefined]
                installed_world in
  R = mkRun (Settled (Thr (rejection 400)))
            (with_client (with_session destroy_installation) installed_world)
            [(device_request JUndefined installed_world, Rejected (rejection 400));
             (Session_setupKeypair true, Resolved (JBool true));
             (Session_storeSession, Resolved JUndefined)]
  /\ installation (session (client (run_world R))) = (JNull, JNull, JNull, None, None).
Proof.
  intros R.
  destruct (registerDevice_rejected sample_host installed_world JUndefined
              (rejects (rejection 400))
              [resolves (JBool true); resolves JUndefined]
              (rejection 400) eq_refl eq_refl) as (_ & _ & H).
  destruct (H eq_refl) as (_ & H1 & H2).
  split; [exact H1|].
  apply H2. repeat constructor.
Defined.

(** C2, as stated, fails in the bad-request case itself.  The registration
    is rejected with status 400 and [setupKeypair(true)] fails: the
    installation is wiped, but the wiped state is not stored
    ([storeSession] is never called) and the caller gets the error of
    [setupKeypair], not the original one. *)
Lemma registerDevice_claim_fails :
  let R := exec (registerDevice sample_host JUndefined)
                [rejects (rejection 400); rejects network_error; resolves JUndefined]
                installed_world in
  bad_request (rejection 400) = true
  /\ run_final R = Settled (Thr network_error)
  /\ network_error <> rejection 400
  /\ run_trace R
     = [(device_request JUndefined installed_world, Rejected (rejection 400));
        (Session_setupKeypair true, Rejected network_error)]
  /\ installation (session (client installed_world))
     = (JStr "server-pem", JStr "server-key", JStr "install-token",
        Some (Some 1559390000000), Some (Some 1559390000000))
  /\ installation (session (client (run_world R))) = (JNull, JNull, JNull, None, None).
Proof.
  vm_compute. repeat split; try reflexivity. discriminate.
Qed.

(** A status of the client-error class other than 400 (here 404) is not the
    bad-request case: the error is thrown again and the installation stays. *)
Lemma registerDevice_404_keeps_installation :
  let R := exec (registerDevice sample_host JUndefined)
                [rejects (rejection 404); resolves (JBool true); resolves JUndefined]
                installed_world in
  client_error 404 = true
  /\ run_final R = Settled (Thr (rejection 404))
  /\ run_trace R = [(device_request JUndefined installed_world, Rejected (rejection 404))]
  /\ installation (session (client (run_world R)))
     = (JStr "server-pem", JStr "server-key", JStr "install-token",
        Some (Some 1559390000000), Some (Some 1559390000000)).
Proof.
  vm_compute. repeat split; reflexivity.
Qed.

(** ** C3: a failing session request *)


(** [registerSession] around any run of [generateSession]. *)
Lemma registerSession_unfold host replies w fin w' tr :
  verifySessionInstallation host (session (client w)) (now w) = false ->
  exec (generateSession host) (shifted marked replies) w = mkRun fin w' tr ->
  exec (registerSession host) replies w =
  let w'' := match tr with [] => marked w' | _ => w' end in
  match fin with
  | Settled (Val _) =>
      mkRun (Settled (Val (JBool true))) (with_client (set_fetchingNewSession None) w'') tr
  | Settled (Thr e) =>
      mkRun (Settled (Thr e)) (with_client (set_fetchingNewSession None) w'') tr
  | Pending c => mkRun (Pending c) w'' tr
  end.
Proof.
  intros Hv HG. unfold registerSession.
  rewrite exec_bind, exec_sync. sync_eval. run_eval. cbv zeta. rewrite Hv. cbn [negb].
  rewrite exec_bind, exec_bind, exec_try_catch, exec_bind, exec_started.
  fold marked. cbv zeta. rewrite drop_0. rewrite HG.
  destruct tr as [|ev tr]; destruct fin as [[v|e]|c]; run_eval; try reflexivity;
    repeat (rewrite ?exec_bind, ?exec_sync, ?exec_ret, ?exec_throw; sync_eval; run_eval);
    unfold prefixed; cbn [run_final run_world run_trace app];
    rewrite ?app_nil_r; reflexivity.
Qed.




(** ** C4: expiry arithmetic *)

Lemma setExpiryTimer_session host b w :
  let s' := session (client (setExpiryTimer host b w).2) in
  sessionExpiryTime s' = sessionExpiryTime (session (client w))
  /\ sessionTimeout s' = sessionTimeout (session (client w))
  /\ isOAuthKey s' = isOAuthKey (session (client w)).
Proof.
  destruct (setExpiryTimer_frame host b w) as (_ & _ & _ & H).
  cbv zeta. rewrite <- H. repeat split; reflexivity.
Qed.

Lemma round_double_exact (z : Z) : Z.abs z <= MAX_EXACT -> round_double z = Finite z.
Proof.
  intros H. unfold round_double. cbv zeta.
  destruct (Z.leb_spec (Z.abs z) MAX_EXACT); [reflexivity|lia].
Qed.

Lemma time_clip_valid (z : Z) : Z.abs z <= MAX_TIME -> time_clip (Finite z) = Some z.
Proof.
  intros H. unfold time_clip.
  destruct (Z.leb_spec (Z.abs z) MAX_TIME); [reflexivity|lia].
Qed.

Lemma num_sub_exact (x y : Z) :
  Z.abs (x - y) <= MAX_EXACT -> num_sub (Finite x) (Finite y) = Finite (x - y).
Proof.
  intros H. unfold num_sub, num_neg, num_add.
  replace (x + - y) with (x - y) by lia. now apply round_double_exact.
Qed.

(** C4 (amended).  A successful [generateSession] for a response created at
    [T0] (the time value of [created + " UTC"]) and a principal whose session
    timeout is [S] seconds, where [S * 1000] is at most 2^53 in size and [T0]
    and [T0 + S * 1000] are time values of a [Date] (at most 8.64e15 in
    size): the session expires at [T0 + S * 1000], its timeout is [S * 1000]
    milliseconds, and, outside CI and with keepAlive on, [setExpiryTimer()]
    has armed the timer of the session with the delay
    [(expiry - now) - 15000], as long as that difference is exact: it fires
    15 seconds before the expiry.  The answer of [storeSession] is taken to
    leave expiry and timeout alone. *)
Theorem session_expiry_arithmetic (host : Host) (w : World) (r1 r2 : Reply)
    (rest : list Reply) (response token created user_info v : JsVal) (T0 S : Z) :
  reply_outcome r1 = Resolved response ->
  get_prop response "token" = Val token ->
  get_prop token "created" = Val created ->
  Date_parse host (to_string host created +:+ " UTC") = Finite T0 ->
  get_prop response "user_info" = Val user_info ->
  principal_timeout user_info = Val (JNum S) ->
  Z.abs T0 <= MAX_TIME ->
  Z.abs (S * 1000) <= MAX_EXACT ->
  Z.abs (T0 + S * 1000) <= MAX_TIME ->
  keeps (fun w => (sessionExpiryTime (session (client w)),
                   sessionTimeout (session (client w)))) r2 ->
  let R := exec (generateSession host) (r1 :: r2 :: rest) w in
  run_final R = Settled (Val v) ->
  sessionExpiryTime (session (client (run_world R))) = Some (Some (T0 + S * 1000))
  /\ sessionTimeout (session (client (run_world R))) = Finite (S * 1000)
  /\ (env_ci host = false ->
      keepAlive (client (run_world R)) = true ->
      Z.abs (T0 + S * 1000 - now (run_world R)) + 15000 <= MAX_EXACT ->
      exists h,
        sessionExpiryTimeChecker (session (client (run_world R))) = Some h
        /\ timers (run_world R) !! h
           = Some (mkTimer ExpiryTimerCallback
                     (Finite (T0 + S * 1000 - now (run_world R) - 15000))
                     (now (run_world R)))).
Proof.
  intros H1 Htoken Hcreated HT0 Hui HS HT0r HSr HEr K2 R Hv.
  destruct (generateSession_success host w r1 (r2 :: rest) response R H1 eq_refl v Hv)
    as (token' & created' & ui' & u & timeout & r2' & rest' & stored & w1 &
        Et & Ec & Eu & _ & Ept & Erep & _ & Hw & _ & Hto & Hex & _).
  injection Erep as <- <-.
  rewrite Htoken in Et; injection Et as <-.
  rewrite Hcreated in Ec; injection Ec as <-.
  rewrite Hui in Eu; injection Eu as <-.
  rewrite HS in Ept; injection Ept as <-.
  assert (HSa : Z.abs S <= MAX_EXACT) by lia.
  cbn [new_Date to_number] in Hex, Hto. rewrite HT0 in Hex.
  rewrite (round_double_exact S HSa) in Hex, Hto.
  rewrite (time_clip_valid T0 HT0r) in Hex.
  cbn [getTime num_mul num_add] in Hex, Hto.
  rewrite (round_double_exact (S * 1000) HSr) in Hex, Hto.
  cbn [num_add] in Hex.
  rewrite (round_double_exact (T0 + S * 1000)) in Hex by (unfold MAX_EXACT, MAX_TIME in *; lia).
  rewrite (time_clip_valid _ HEr) in Hex.
  pose proof (K2 w1) as K. cbv beta in K. rewrite Hex, Hto in K. injection K as Kex Kto.
  destruct (setExpiryTimer_session host false (reply_effect r2 w1)) as (Fex & Fto & _).
  destruct (setExpiryTimer_frame host false (reply_effect r2 w1)) as (Fnow & Fka & _).
  rewrite Hw. rewrite Fex, Fto, Kex, Kto, Fnow, Fka.
  repeat split.
  intros Hci Hka Hd.
  destruct (setExpiryTimer_arms host (reply_effect r2 w1) _ Hci Hka Kex) as [Hh Ht].
  exists (next_timer (reply_effect r2 w1)). split; [exact Hh|]. rewrite Ht.
  cbn [getTime]. rewrite num_sub_exact by lia. rewrite num_sub_exact by lia. reflexivity.
Qed.

Lemma session_expiry_arithmetic_witness :
  let R := exec (generateSession sample_host)
                [resolves (session_response company_payload); resolves JUndefined]
                new_world in
  sessionExpiryTime (session (client (run_world R)))
  = Some (Some (1559390400000 + 3600 * 1000))
  /\ sessionTimeout (session (client (run_world R))) = Finite (3600 * 1000)
  /\ (env_ci sample_host = false ->
      keepAlive (client (run_world R)) = true ->
      Z.abs (1559390400000 + 3600 * 1000 - now (run_world R)) + 15000 <= MAX_EXACT ->
      exists h,
        sessionExpiryTimeChecker (session (client (run_world R))) = Some h
        /\ timers (run_world R) !! h
           = Some (mkTimer ExpiryTimerCallback
                     (Finite (1559390400000 + 3600 * 1000 - now (run_world R) - 15000))
                     (now (run_world R)))).
Proof.
  apply (session_expiry_arithmetic sample_host new_world
           (resolves (session_response company_payload)) (resolves JUndefined) []
           (session_response company_payload)
           (JObj {[ "id" := JNum 11;
                    "created" := JStr "2019-06-01 12:00:00.000000";
                    "token" := JStr "session-token" ]})
           (JStr "2019-06-01 12:00:00.000000") company_payload (JBool true)
           1559390400000 3600);
    try reflexivity; try (vm_compute; discriminate).
  intros w'. reflexivity.
Defined.

(** C4, as stated for every timeout, fails.  With a session timeout of
    2^53 - 1 seconds the session is created, but its expiry is an invalid
    date (the sum is beyond the range of [Date]), its timeout is the double
    nearest to [S * 1000], which is not [S * 1000], and the timer is armed
    with the delay NaN. *)
Lemma session_expiry_beyond_range :
  let S := 9007199254740991 in
  let T0 := 1559390400000 in
  let R := exec (generateSession sample_host)
                [resolves (session_response long_lived_payload); resolves JUndefined]
                new_world in
  run_final R = Settled (Val (JBool true))
  /\ sessionExpiryTime (session (client (run_world R))) = Some None
  /\ sessionExpiryTime (session (client (run_world R))) <> Some (Some (T0 + S * 1000))
  /\ sessionTimeout (session (client (run_world R))) = Finite 9007199254740990976
  /\ sessionTimeout (session (client (run_world R))) <> Finite (S * 1000)
  /\ timers (run_world R) !! 0%nat
     = Some (mkTimer ExpiryTimerCallback NaN (now (run_world R))).
Proof.
  vm_compute. repeat split; try reflexivity; discriminate.
Qed.

(** ** C5: the delay after a renewal *)

(** C5 (amended).  [setExpiryTimer(true)] outside CI, with keepAlive on, a
    known expiry and a session timeout that is a finite number (not below
    15000 - 2^53): the timer of the session is armed with the delay
    [min(sessionTimeout, 300000) - 15000], whatever the expiry time and the
    clock are. *)
Theorem setExpiryTimer_short (host : Host) (w : World) (expiry : Date) (timeout : Z) :
  env_ci host = false ->
  keepAlive (client w) = true ->
  sessionExpiryTime (session (client w)) = Some expiry ->
  sessionTimeout (session (client w)) = Finite timeout ->
  15000 - MAX_EXACT <= timeout ->
  let w' := (setExpiryTimer host true w).2 in
  sessionExpiryTimeChecker (session (client w')) = Some (next_timer w)
  /\ timers w' !! next_timer w
     = Some (mkTimer ExpiryTimerCallback (Finite (Z.min timeout FIVE_MINUTES_MS - 15000))
                     (now w)).
Proof.
  intros Hci Hka He Ht Hlow. unfold setExpiryTimer. rewrite Hci.
  sync_eval. rewrite Hka, He, Ht. cbn [negb]. unfold clearExpiryTimer. sync_eval.
  assert (Hmin : num_sub (if num_gt (Finite timeout) (Finite FIVE_MINUTES_MS)
                          then Finite FIVE_MINUTES_MS else Finite timeout) (Finite 15000)
                 = Finite (Z.min timeout FIVE_MINUTES_MS - 15000)).
  { unfold num_gt, FIVE_MINUTES_MS, MAX_EXACT in *.
    destruct (Z.ltb_spec 300000 timeout).
    - rewrite num_sub_exact by (unfold MAX_EXACT; lia). f_equal. lia.
    - rewrite num_sub_exact by (unfold MAX_EXACT; lia). f_equal. lia. }
  rewrite Hmin.
  destruct (sessionExpiryTimeChecker (session (client w))) as [h|]; cbn;
    rewrite lookup_insert_eq; split; reflexivity.
Qed.

Lemma setExpiryTimer_short_witness :
  let w' := (setExpiryTimer sample_host true session_world).2 in
  sessionExpiryTimeChecker (session (client w')) = Some (next_timer session_world)
  /\ timers w' !! next_timer session_world
     = Some (mkTimer ExpiryTimerCallback (Finite (Z.min 3600000 FIVE_MINUTES_MS - 15000))
               (now session_world)).
Proof.
  apply (setExpiryTimer_short sample_host session_world (Some 1559394000000) 3600000);
    try reflexivity.
  vm_compute. discriminate.
Defined.

(** C5, as stated, fails in its last part: the short delay is not kept away
    from the remaining time.  For a session of two minutes that has just been
    created, [setExpiryTimer(true)] arms the very delay that
    [setExpiryTimer()] computes from the full remaining time (105 s).  For a
    session of an hour that expires in 100 s, the short delay is 285 s: the
    timer fires after the expiry. *)
Lemma setExpiryTimer_short_not_below_remaining :
  let short w := timer_delay <$> timers (setExpiryTimer sample_host true w).2 !! 0%nat in
  let full w := timer_delay <$> timers (setExpiryTimer sample_host false w).2 !! 0%nat in
  let remaining w :=
    match sessionExpiryTime (session (client w)) with
    | Some expiry => num_sub (getTime expiry) (Finite (now w))
    | None => NaN
    end in
  (remaining fresh_short_world = Finite 120000
   /\ short fresh_short_world = Some (Finite 105000)
   /\ full fresh_short_world = Some (Finite 105000))
  /\ (remaining late_world = Finite 100000
      /\ short late_world = Some (Finite 285000)
      /\ full late_world = Some (Finite 85000)).
Proof.
  vm_compute. repeat split; reflexivity.
Qed.

(** ** C6: the timer when renewal is off *)

(** C6, as stated, fails: in CI the armed timer stays. *)
Lemma setExpiryTimer_ci_keeps_timer :
  ~ cancels_when_disabled ci_host armed_world false.
Proof.
  unfold cancels_when_disabled. intros H.
  destruct H as [_ H]; [left; reflexivity|].
  specialize (H 0%nat eq_refl). vm_compute in H. discriminate.
Qed.

(** C6 (amended).  [setExpiryTimer] in CI or with keepAlive off returns false
    and schedules nothing.  In CI it returns at once and the world is as
    before: a timer that was armed stays armed.  Outside CI, with keepAlive
    off, the timer whose handle the session holds is cancelled. *)
Theorem setExpiryTimer_disabled (host : Host) (w : World) (shortTimeout : bool) :
  env_ci host = true \/ keepAlive (client w) = false ->
  let '(r, w') := setExpiryTimer host shortTimeout w in
  r = Val (JBool false)
  /\ next_timer w' = next_timer w
  /\ timers w' ⊆ timers w
  /\ (env_ci host = true -> w' = w)
  /\ (env_ci host = false ->
      timers w' = match sessionExpiryTimeChecker (session (client w)) with
                  | Some h => delete h (timers w)
                  | None => timers w
                  end).
Proof.
  intros H. unfold setExpiryTimer.
  destruct (env_ci host) eqn:Hci.
  - sync_eval. repeat split; auto. discriminate.
  - destruct H as [H|H]; [discriminate|].
    sync_eval. rewrite H. cbn [negb]. unfold clearExpiryTimer. sync_eval.
    destruct (sessionExpiryTimeChecker (session (client w))) as [h|]; cbn.
    + repeat split; auto; try discriminate. apply delete_subseteq.
    + repeat split; auto; discriminate.
Qed.

Lemma setExpiryTimer_disabled_witness :
  let '(r, w') := setExpiryTimer sample_host false
                    (with_client (set_keepAlive false) armed_world) in
  r = Val (JBool false)
  /\ next_timer w' = next_timer (with_client (set_keepAlive false) armed_world)
  /\ timers w' ⊆ timers (with_client (set_keepAlive false) armed_world)
  /\ (env_ci sample_host = true -> w' = with_client (set_keepAlive false) armed_world)
  /\ (env_ci sample_host = false ->
      timers w' = match sessionExpiryTimeChecker
                          (session (client (with_client (set_keepAlive false) armed_world))) with
                  | Some h => delete h (timers (with_client (set_keepAlive false) armed_world))
                  | None => timers (with_client (set_keepAlive false) armed_world)
                  end).
Proof.
  apply (setExpiryTimer_disabled sample_host (with_client (set_keepAlive false) armed_world) false).
  right. reflexivity.
Defined.

(** ** C7: principal classification *)









(** ** C8: the principals of an OAuth key *)



(** ** C9: failures of the collaborators *)

Lemma rejections_app (tr1 tr2 : list (Call * Outcome)) :
  rejections (tr1 ++ tr2) = rejections tr1 ++ rejections tr2.
Proof. apply omap_app. Qed.

Lemma last_app_r {A} (l1 l2 : list A) (x : A) :
  last l2 = Some x -> last (l1 ++ l2) = Some x.
Proof.
  intros H. destruct l2 as [|y l2] using rev_ind; [discriminate|].
  rewrite app_assoc, last_snoc. rewrite last_snoc in H. exact H.
Qed.

Lemma last_rejections_app (tr1 tr2 : list (Call * Outcome)) :
  last (rejections (tr1 ++ tr2))
  = match last (rejections tr2) with
    | Some x => Some x
    | None => last (rejections tr1)
    end.
Proof.
  rewrite rejections_app.
  destruct (last (rejections tr2)) as [x|] eqn:E.
  - now apply last_app_r.
  - apply last_None in E. rewrite E, app_nil_r. reflexivity.
Qed.

Lemma propagates_ret {A} Q (a : A) : propagates Q (mret a).
Proof. intros replies w c e r H. discriminate. Qed.

Lemma propagates_throw {A} Q (e0 : JsVal) : propagates Q (@Throw A e0).
Proof. intros replies w c e r H. discriminate. Qed.

Lemma propagates_sync {A} Q (m : Sync A) : propagates Q (sync m).
Proof.
  intros replies w c e r. rewrite exec_sync.
  destruct (m w) as [[a|e0] w']; discriminate.
Qed.

Lemma propagates_await (Q : Call -> World -> JsVal -> JsVal -> Prop) (call : Call) :
  (forall w e, Q call w e e) -> propagates Q (await call).
Proof.
  intros HQ [|r0 replies] w c e r.
  - discriminate.
  - rewrite exec_await. cbn [run_trace run_final run_world rejections omap].
    destruct (reply_outcome r0) as [v|e0]; cbn; [discriminate|].
    intros [= <- <-] [= <-]. eauto.
Qed.

Lemma propagates_bind {A B} Q (p : Prog A) (f : A -> Prog B) :
  propagates Q p -> (forall a, propagates Q (f a)) -> propagates Q (p ≫= f).
Proof.
  intros Hp Hf replies w c e r. rewrite exec_bind. cbv zeta.
  specialize (Hp replies w).
  destruct (exec p replies w) as [[[a|e0]|c0] w' tr]; cbn [run_final run_trace run_world] in *.
  - unfold prefixed. cbn [run_final run_trace run_world]. rewrite last_rejections_app.
    specialize (Hf a (drop (length tr) replies) w').
    destruct (last (rejections (run_trace (exec (f a) (drop (length tr) replies) w'))))
      as [[c1 e1]|] eqn:E.
    + intros [= -> ->]. exact (Hf c e r eq_refl).
    + intros Hl _. destruct (Hp c e _ Hl eq_refl) as (thrown & Hthr & _). discriminate.
  - intros Hl [= <-]. destruct (Hp c e _ Hl eq_refl) as (thrown & [= <-] & HQ). eauto.
  - discriminate.
Qed.



Lemma propagates_started {A} Q act (p : Prog A) :
  propagates Q p -> propagates Q (started act p).
Proof.
  intros Hp replies w c e r. rewrite exec_started. cbv zeta.
  specialize (Hp (shifted act replies) w c e r).
  destruct (exec p (shifted act replies) w) as [fin w' [|ev tr]];
    cbn [run_final run_trace run_world] in *; auto.
  discriminate.
Qed.

Ltac propagate :=
  repeat first
    [ apply propagates_ret
    | apply propagates_throw
    | apply propagates_sync
    | apply propagates_await;
      [intros; cbn; try reflexivity; try (split; [reflexivity|first [exact I|reflexivity]])]
    | apply propagates_bind; [|intros ?]
    | apply propagates_started
    | match goal with
      | |- propagates _ (if ?b then _ else _) => destruct b
      end ].






Lemma refresh_users_propagates host : propagates unchanged (refresh_users host).
Proof. unfold refresh_users. propagate. Qed.













(** The refresh that the expiry timer leaves running: its failure is logged
    and nobody gets it. *)
Lemma expiryTimerCallback_logs_failure (host : Host) (w : World) (r : Reply)
    (replies : list Reply) (e : JsVal) :
  keepAlive (client w) = true ->
  reply_outcome r = Rejected e ->
  let R := exec (timer_fired host) (r :: replies) w in
  run_final R = Settled (Val JUndefined)
  /\ run_trace R = [(Api_user_list, Rejected e)]
  /\ run_world R = add_log (LogError e) (reply_effect r (setExpiryTimer host true w).2).
Proof.
  intros Hk Hr. cbv zeta. rewrite (timer_fired_on host _ w Hk).
  unfold refresh_chain, getUsers, refresh_users.
  prog_eval. rewrite Hr. prog_eval. sync_eval. prog_eval. repeat split.
Qed.

(** ** C10: the OAuth flag of the session *)

(** C10.  A successful [generateSession]: when the payload classifies as
    OAuth, the flag [isOAuthKey] of the session is what it was before the
    call; when it does not, the flag is false.  The answers of the
    collaborators are taken to leave the flag alone. *)
Theorem generateSession_isOAuthKey (host : Host) (w : World) (r1 r2 : Reply)
    (rest : list Reply) (response user_info v : JsVal) (u : UserType) :
  reply_outcome r1 = Resolved response ->
  get_prop response "user_info" = Val user_info ->
  getUserType user_info = Val u ->
  keeps (fun w => isOAuthKey (session (client w))) r1 ->
  keeps (fun w => isOAuthKey (session (client w))) r2 ->
  let R := exec (generateSession host) (r1 :: r2 :: rest) w in
  run_final R = Settled (Val v) ->
  isOAuthKey (session (client (run_world R)))
  = if isOAuth u then isOAuthKey (session (client w)) else false.
Proof.
  intros H1 Hui Hu K1 K2 R Hv.
  destruct (generateSession_success host w r1 (r2 :: rest) response R H1 eq_refl v Hv)
    as (token' & created' & ui' & u' & timeout & r2' & rest' & stored & w1 &
        _ & _ & Eu & Eu' & _ & Erep & _ & Hw & _ & _ & _ & Hflag).
  injection Erep as <- <-.
  rewrite Hui in Eu; injection Eu as <-.
  rewrite Hu in Eu'; injection Eu' as <-.
  destruct (setExpiryTimer_session host false (reply_effect r2 w1)) as (_ & _ & F).
  rewrite Hw, F, K2, Hflag, K1. reflexivity.
Qed.

Lemma generateSession_isOAuthKey_witness :
  let w := with_client (with_session (set_isOAuthKey true)) new_world in
  let R := exec (generateSession sample_host)
                [resolves (session_response oauth_payload); resolves JUndefined] w in
  isOAuthKey (session (client (run_world R)))
  = if isOAuth (mkUserType oauth_info "UserApiKey" true)
    then isOAuthKey (session (client w)) else false.
Proof.
  intros w.
  apply (generateSession_isOAuthKey sample_host w
           (resolves (session_response oauth_payload)) (resolves JUndefined) []
           (session_response oauth_payload) oauth_payload (JBool true)
           (mkUserType oauth_info "UserApiKey" true));
    try reflexivity; intros w'; reflexivity.
Defined.

(** * Further properties of the client *)

(** ** What the operations leave alone *)

Lemma frames_ret {A X} (part : World -> X) (a : A) : frames part (mret a).
Proof. intros replies w _. reflexivity. Qed.

Lemma frames_throw {A X} (part : World -> X) (e : JsVal) : frames part (@Throw A e).
Proof. intros replies w _. reflexivity. Qed.

Lemma frames_sync {A X} (part : World -> X) (m : Sync A) :
  (forall w, part (m w).2 = part w) -> frames part (sync m).
Proof.
  intros Hm replies w _. rewrite exec_sync. specialize (Hm w).
  destruct (m w) as [[a|e] w']; exact Hm.
Qed.

Lemma frames_await {X} (part : World -> X) (c : Call) : frames part (await c).
Proof.
  intros [|r replies] w H; [reflexivity|].
  rewrite exec_await. cbn [run_world]. inversion H as [|? ? Hr _]; subst. apply Hr.
Qed.

Lemma frames_bind {A B X} (part : World -> X) (p : Prog A) (f : A -> Prog B) :
  frames part p -> (forall a, frames part (f a)) -> frames part (p ≫= f).
Proof.
  intros Hp Hf replies w H. rewrite exec_bind. cbv zeta.
  specialize (Hp replies w H).
  destruct (exec p replies w) as [[[a|e]|c] w' tr]; cbn [run_final run_world run_trace] in *;
    try exact Hp.
  unfold prefixed. cbn [run_world]. rewrite <- Hp.
  apply Hf. now apply Forall_drop.
Qed.

Lemma frames_try_catch {A X} (part : World -> X) (p : Prog A) h :
  frames part p -> (forall e, frames part (h e)) -> frames part (try_catch p h).
Proof.
  intros Hp Hh replies w H. rewrite exec_try_catch. cbv zeta.
  specialize (Hp replies w H).
  destruct (exec p replies w) as [[[a|e]|c] w' tr]; cbn [run_final run_world run_trace] in *;
    try exact Hp.
  unfold prefixed. cbn [run_world]. rewrite <- Hp.
  apply Hh. now apply Forall_drop.
Qed.

Lemma frames_started {A X} (part : World -> X) act (p : Prog A) :
  (forall w, part (act w) = part w) -> frames part p -> frames part (started act p).
Proof.
  intros Hact Hp replies w H. rewrite exec_started. cbv zeta.
  assert (Hs : Forall (keeps part) (shifted act replies)).
  { destruct replies as [|r replies]; [constructor|].
    inversion H as [|? ? Hr Hrest]; subst. constructor; [|exact Hrest].
    intros w0. cbn. rewrite Hr. apply Hact. }
  specialize (Hp (shifted act replies) w Hs).
  destruct (exec p (shifted act replies) w) as [fin w' [|ev tr]];
    cbn [run_final run_world run_trace] in *; [|exact Hp].
  rewrite Hact. exact Hp.
Qed.

(** A synchronous block that writes nothing of [part]. *)
Ltac destruct_innermost x :=
  lazymatch x with
  | context [match ?y with _ => _ end] => destruct_innermost y
  | _ => destruct x
  end.

Ltac sync_frame :=
  intros ?; try unfold parseOauthUser; try unfold setExpiryTimer; try unfold clearExpiryTimer;
  sync_eval;
  repeat match goal with
         | |- context [match ?x with _ => _ end] => destruct_innermost x
         end;
  reflexivity.

Ltac frame :=
  repeat first
    [ apply frames_ret
    | apply frames_throw
    | apply frames_await
    | apply frames_bind; [|intros ?]
    | apply frames_try_catch; [|intros ?]
    | match goal with
      | |- frames _ (if ?b then _ else _) => destruct b
      end ].

Ltac frame_op :=
  frame; try (apply frames_sync; sync_frame).

(** [setExpiryTimer] writes the timers only. *)
Lemma setExpiryTimer_view host b w part :
  part <> P_timers -> view part (setExpiryTimer host b w).2 = view part w.
Proof.
  intros Hp. revert w.
  destruct part; try (exfalso; apply Hp; reflexivity); clear Hp; sync_frame.
Qed.

Lemma generateSession_frames host (part : Part) :
  writes Op_registerSession part = false -> frames (view part) (generateSession host).
Proof.
  intros Hw. unfold generateSession.
  destruct part; try discriminate Hw; clear Hw; frame_op.
Qed.

(** X1.  What the operations never write.  Each operation leaves every part of
    the state outside its write set as it was, provided the answers of its
    collaborators do. *)
Theorem write_set_sound (host : Host) (op : Operation) (part : Part) (replies : list Reply)
    (w : World) :
  writes op part = false ->
  Forall (keeps (view part)) replies ->
  view part (run_world (exec (perform host op) replies w)) = view part w.
Proof.
  intros Hw. revert replies w. change (frames (view part) (perform host op)).
  destruct op as [? ? ? ?| | | | | | | |? [|]|[|]]; cbn [perform].
  - unfold run. destruct part; try discriminate Hw; clear Hw; frame_op.
  - unfold install. destruct part; try discriminate Hw; clear Hw; frame_op.
  - unfold registerDevice. cbv zeta. destruct part; try discriminate Hw; clear Hw; frame_op.
  - unfold registerSession. pose proof (generateSession_frames host part Hw) as HG.
    destruct part; try discriminate Hw; clear Hw; frame_op;
      (apply frames_started; [reflexivity|exact HG]).
  - unfold createCredentials. destruct part; frame_op.
  - unfold checkCredentialStatus. destruct part; frame_op.
  - unfold destroySession. destruct part; try discriminate Hw; clear Hw; frame_op.
  - unfold destroyApiSession. destruct part; try discriminate Hw; clear Hw; frame_op.
  - unfold getUser, refresh_users. destruct part; try discriminate Hw; clear Hw; frame_op.
  - unfold getUser. destruct part; frame_op.
  - unfold getUsers, refresh_users. destruct part; try discriminate Hw; clear Hw; frame_op.
  - unfold getUsers. destruct part; frame_op.
Qed.

Lemma write_set_sound_witness :
  view P_installation
    (run_world (exec (perform sample_host Op_registerSession)
                     [resolves (session_response company_payload); resolves JUndefined]
                     installed_world))
  = view P_installation installed_world.
Proof.
  apply (write_set_sound sample_host Op_registerSession P_installation
           [resolves (session_response company_payload); resolves JUndefined]
           installed_world);
    [reflexivity|].
  repeat constructor.
Defined.

Ltac writes_at host replies w :=
  exists host, replies, w;
  split; [repeat constructor; intros ?; reflexivity | vm_compute; discriminate].

(** X2.  The write sets are exact.  For every part in the write set of an
    operation there is a run in which the collaborators leave that part alone
    and the operation changes it. *)
Theorem write_set_exact (op : Operation) (part : Part) :
  writes op part = true ->
  exists host replies w,
    Forall (keeps (view part)) replies
    /\ view part (run_world (exec (perform host op) replies w)) <> view part w.
Proof.
  intros Hw.
  destruct op as [apiKey ? ? ?| | | | | | | |? [|]|[|]], part; try discriminate Hw; clear Hw.
  - exists sample_host, [],
      (with_client (set_apiKey (if nullish apiKey then JBool true else JNull)) new_world).
    split; [constructor|].
    destruct apiKey; vm_compute; discriminate.
  - writes_at sample_host [resolves JUndefined; resolves JUndefined] session_world.
  - writes_at sample_host
      [resolves installation_response; resolves (JStr "server-key"); resolves JUndefined]
      new_world.
  - writes_at sample_host
      [rejects (rejection 400); resolves (JBool true); resolves JUndefined] installed_world.
  - writes_at sample_host [resolves (JNum 3); resolves JUndefined] installed_world.
  - writes_at sample_host [resolves (session_response company_payload); resolves JUndefined]
      new_world.
  - writes_at sample_host [resolves (session_response company_payload); resolves JUndefined]
      new_world.
  - writes_at sample_host [resolves (session_response company_payload); resolves JUndefined]
      new_world.
  - writes_at sample_host [resolves (session_response company_payload); resolves JUndefined]
      new_world.
  - writes_at sample_host [resolves JUndefined] armed_world.
  - writes_at sample_host [resolves JUndefined] armed_world.
  - writes_at sample_host [resolves company_payload] new_world.
  - writes_at sample_host [resolves company_payload] new_world.
Qed.

Lemma write_set_exact_witness :
  exists host replies w,
    Forall (keeps (view P_installation)) replies
    /\ view P_installation (run_world (exec (perform host Op_install) replies w))
       <> view P_installation w.
Proof. apply (write_set_exact Op_install P_installation). reflexivity. Defined.

(** ** At most one expiry timer *)

Lemma preserves_ret {A} I (a : A) : preserves I (mret a).
Proof. intros replies w _ H. exact H. Qed.

Lemma preserves_throw {A} I (e : JsVal) : preserves I (@Throw A e).
Proof. intros replies w _ H. exact H. Qed.

Lemma preserves_sync {A} I (m : Sync A) :
  (forall w, I w -> I (m w).2) -> preserves I (sync m).
Proof.
  intros Hm replies w _ H. rewrite exec_sync. specialize (Hm w H).
  destruct (m w) as [[a|e] w']; exact Hm.
Qed.

Lemma preserves_await I (c : Call) : preserves I (await c).
Proof.
  intros [|r replies] w H HI; [exact HI|].
  rewrite exec_await. cbn [run_world]. inversion H as [|? ? Hr _]; subst. now apply Hr.
Qed.

Lemma preserves_bind {A B} I (p : Prog A) (f : A -> Prog B) :
  preserves I p -> (forall a, preserves I (f a)) -> preserves I (p ≫= f).
Proof.
  intros Hp Hf replies w H HI. rewrite exec_bind. cbv zeta.
  specialize (Hp replies w H HI).
  destruct (exec p replies w) as [[[a|e]|c] w' tr]; cbn [run_final run_world run_trace] in *;
    try exact Hp.
  unfold prefixed. cbn [run_world]. apply Hf; [now apply Forall_drop|exact Hp].
Qed.

Lemma preserves_try_catch {A} I (p : Prog A) h :
  preserves I p -> (forall e, preserves I (h e)) -> preserves I (try_catch p h).
Proof.
  intros Hp Hh replies w H HI. rewrite exec_try_catch. cbv zeta.
  specialize (Hp replies w H HI).
  destruct (exec p replies w) as [[[a|e]|c] w' tr]; cbn [run_final run_world run_trace] in *;
    try exact Hp.
  unfold prefixed. cbn [run_world]. apply Hh; [now apply Forall_drop|exact Hp].
Qed.

Lemma preserves_started {A} I act (p : Prog A) :
  (forall w, I w -> I (act w)) -> preserves I p -> preserves I (started act p).
Proof.
  intros Hact Hp replies w H HI. rewrite exec_started. cbv zeta.
  assert (Hs : Forall (fun r => forall w, I w -> I (reply_effect r w)) (shifted act replies)).
  { destruct replies as [|r replies]; [constructor|].
    inversion H as [|? ? Hr Hrest]; subst. constructor; [|exact Hrest].
    intros w0 H0. cbn. apply Hr, Hact, H0. }
  specialize (Hp (shifted act replies) w Hs HI).
  destruct (exec p (shifted act replies) w) as [fin w' [|ev tr]];
    cbn [run_final run_world run_trace] in *; [|exact Hp].
  apply Hact, Hp.
Qed.

Lemma timer_owned_view w w' :
  view P_timers w' = view P_timers w -> timer_owned w -> timer_owned w'.
Proof.
  cbn. intros [= Ht _ Hc] H h t. rewrite Ht, Hc. apply H.
Qed.

Lemma clearExpiryTimer_owned w : timer_owned w -> timer_owned (clearExpiryTimer w).2.
Proof.
  intros H. unfold clearExpiryTimer. sync_eval.
  destruct (sessionExpiryTimeChecker (session (client w))) as [h|] eqn:E; cbn; [|exact H].
  intros h' t. cbn. intros Hl. apply lookup_delete_Some in Hl as [_ Hl].
  exact (H h' t Hl).
Qed.

Lemma setExpiryTimer_owned host b w :
  timer_owned w -> timer_owned (setExpiryTimer host b w).2.
Proof.
  intros H. unfold setExpiryTimer. destruct (env_ci host); [exact H|].
  sync_eval. destruct (keepAlive (client w)); cbn [negb].
  - destruct (sessionExpiryTime (session (client w))) as [expiry|]; [|exact H].
    unfold clearExpiryTimer. sync_eval.
    destruct (sessionExpiryTimeChecker (session (client w))) as [h|] eqn:E; cbn;
      intros h' t; cbn; intros Hl.
    + apply lookup_insert_Some in Hl as [[<- _]|[_ Hl]]; [reflexivity|].
      apply lookup_delete_Some in Hl as [Hne Hl]. specialize (H h' t Hl). congruence.
    + apply lookup_insert_Some in Hl as [[<- _]|[_ Hl]]; [reflexivity|].
      specialize (H h' t Hl). congruence.
  - pose proof (clearExpiryTimer_owned w H) as Hc.
    destruct (clearExpiryTimer w) as [[[]|e] w']; exact Hc.
Qed.

Ltac own_sync :=
  let w := fresh "w" in
  intros w; apply timer_owned_view; revert w; sync_frame.

Ltac own :=
  repeat first
    [ apply preserves_ret
    | apply preserves_throw
    | apply preserves_await
    | apply preserves_bind; [|intros ?]
    | apply preserves_try_catch; [|intros ?]
    | apply preserves_sync;
      first [ apply setExpiryTimer_owned | apply clearExpiryTimer_owned | own_sync ]
    | match goal with
      | |- preserves _ (if ?b then _ else _) => destruct b
      end ].

Lemma generateSession_owned host : preserves timer_owned (generateSession host).
Proof. unfold generateSession. own. Qed.

(** X3.  The client never has two expiry timers.  If every armed timer is the
    one whose handle the session holds, that is still so after any operation
    and after the timer callback, provided the collaborators keep it so. *)
Theorem expiry_timer_unique (host : Host) (e : Entry) (replies : list Reply) (w : World) :
  Forall (fun r => forall w, timer_owned w -> timer_owned (reply_effect r w)) replies ->
  timer_owned w ->
  timer_owned (run_world (exec (enter host e) replies w)).
Proof.
  revert replies w. change (preserves timer_owned (enter host e)).
  destruct e as [op|]; cbn [enter].
  - destruct op; cbn [perform].
    + unfold run. own.
    + unfold install. own.
    + unfold registerDevice. cbv zeta. own.
    + unfold registerSession. own.
      apply preserves_started; [intros w H; exact H|apply generateSession_owned].
    + unfold createCredentials. own.
    + unfold checkCredentialStatus. own.
    + unfold destroySession. own.
    + unfold destroyApiSession. own.
    + unfold getUser, refresh_users. own.
    + unfold getUsers, refresh_users. own.
  - intros replies w HF HI.
    destruct (keepAlive (client w)) eqn:Hk.
    + rewrite (timer_fired_on host replies w Hk).
      assert (Hp : preserves timer_owned (refresh_chain host;; mret JUndefined)).
      { unfold refresh_chain, getUsers, refresh_users. own. }
      apply Hp; [exact HF|]. apply setExpiryTimer_owned, HI.
    + rewrite (timer_fired_off host replies w Hk). apply clearExpiryTimer_owned, HI.
Qed.

Lemma expiry_timer_unique_witness :
  timer_owned (run_world (exec (enter sample_host TimerFired) [resolves company_payload]
                               valid_world)).
Proof.
  apply (expiry_timer_unique sample_host TimerFired [resolves company_payload] valid_world).
  - repeat constructor. intros w H. exact H.
  - intros h t Hl.
    change (timers valid_world) with
      ({[ 0%nat := mkTimer ExpiryTimerCallback (Finite 3584500) 1559390400500 ]} : gmap nat Timer)
      in Hl.
    apply lookup_singleton_Some in Hl as [<- _]. reflexivity.
Defined.

(** ** The handshake *)

(** X4.  A stage that is verified is skipped.  [install], [registerDevice] and
    [registerSession] resolve to true, call no collaborator and write nothing
    (neither [fetchingNewSession] nor the log) when their check holds. *)
Theorem verified_stage_skipped (host : Host) (op : Operation) (replies : list Reply)
    (w : World) :
  stage_verified host op w = true ->
  exec (perform host op) replies w = mkRun (Settled (Val (JBool true))) w [].
Proof.
  destruct op; cbn [stage_verified perform]; try discriminate; intros Hv.
  - unfold install. prog_eval. sync_eval. prog_eval. rewrite Hv. reflexivity.
  - unfold registerDevice. prog_eval. sync_eval. prog_eval. rewrite Hv. reflexivity.
  - unfold registerSession. prog_eval. sync_eval. prog_eval. rewrite Hv. reflexivity.
Qed.

Lemma verified_stage_skipped_witness :
  exec (perform sample_host Op_registerSession) [rejects network_error] valid_world
  = mkRun (Settled (Val (JBool true))) valid_world [].
Proof.
  apply (verified_stage_skipped sample_host Op_registerSession [rejects network_error]
           valid_world).
  reflexivity.
Defined.

(** X5.  Without a public key [install] throws before it calls anything, and
    leaves the client as it is. *)
Theorem install_without_key (host : Host) (replies : list Reply) (w : World) :
  verifyInstallation host (session (client w)) (now w) = false ->
  truthy (publicKey (session (client w))) = false ->
  exec (install host) replies w = mkRun (Settled (Thr no_public_key_error)) w [].
Proof.
  intros Hv Hk. unfold install. prog_eval. sync_eval. prog_eval. rewrite Hv, Hk. reflexivity.
Qed.

Lemma install_without_key_witness :
  exec (install sample_host) [resolves installation_response] keyless_world
  = mkRun (Settled (Thr no_public_key_error)) keyless_world [].
Proof.
  apply (install_without_key sample_host [resolves installation_response] keyless_world);
    reflexivity.
Defined.



(** X7.  A failing [publicKeyFromPem].  [install] fails with its error; the PEM
    of the server is already in the session, the parsed key and the token are
    not, and nothing is stored. *)
Theorem install_key_parse_fails (host : Host) (w : World) (r1 r2 : Reply) (replies : list Reply)
    (response pem e : JsVal) :
  verifyInstallation host (session (client w)) (now w) = false ->
  truthy (publicKey (session (client w))) = true ->
  reply_outcome r1 = Resolved response ->
  get_prop response "serverPublicKey" = Val pem ->
  reply_outcome r2 = Rejected e ->
  exec (install host) (r1 :: r2 :: replies) w
  = mkRun (Settled (Thr e))
          (reply_effect r2 (with_client (with_session (set_serverPublicKeyPem pem))
                                        (reply_effect r1 w)))
          [(Api_installation_add, Resolved response); (publicKeyFromPem pem, Rejected e)].
Proof.
  intros Hv Hk H1 Hp H2. unfold install. prog_eval. sync_eval. prog_eval.
  rewrite Hv, Hk. cbn [negb]. prog_eval. rewrite H1. prog_eval. rewrite Hp. prog_eval.
  sync_eval. prog_eval. rewrite H2. prog_eval. reflexivity.
Qed.

Lemma install_key_parse_fails_witness :
  exec (install sample_host) [resolves installation_response; rejects network_error] new_world
  = mkRun (Settled (Thr network_error))
          (with_client (with_session (set_serverPublicKeyPem (JStr "server-pem"))) new_world)
          [(Api_installation_add, Resolved installation_response);
           (publicKeyFromPem (JStr "server-pem"), Rejected network_error)].
Proof.
  apply (install_key_parse_fails sample_host new_world (resolves installation_response)
           (rejects network_error) [] installation_response (JStr "server-pem") network_error);
    reflexivity.
Defined.

(** ** [registerDevice] *)

(** X8.  A successful [registerDevice].  The request carries the given name,
    or "My Device" when none is given, and the allowed addresses of the
    client; the device id is what the call resolved to, and the session is
    stored after it is set. *)
Theorem registerDevice_success (host : Host) (w : World) (deviceName : JsVal)
    (r1 r2 : Reply) (replies : list Reply) (id stored : JsVal) :
  verifyDeviceInstallation host (session (client w)) (now w) = false ->
  reply_outcome r1 = Resolved id ->
  reply_outcome r2 = Resolved stored ->
  exec (registerDevice host deviceName) (r1 :: r2 :: replies) w
  = mkRun (Settled (Val (JBool true)))
          (reply_effect r2 (with_client (with_session (set_deviceId id)) (reply_effect r1 w)))
          [(Api_deviceRegistration_add
              (JObj {[ "description" := (if defined deviceName then deviceName
                                         else JStr "My Device");
                       "permitted_ips" := allowedIps (client w) ]}), Resolved id);
           (Session_storeSession, Resolved stored)].
Proof.
  intros Hv H1 H2. unfold registerDevice.
  prog_eval. sync_eval. prog_eval. rewrite Hv. cbn [negb]. prog_eval.
  rewrite H1. prog_eval. sync_eval. prog_eval. rewrite H2. prog_eval. reflexivity.
Qed.

Lemma registerDevice_success_witness :
  exec (registerDevice sample_host JUndefined) [resolves (JNum 3); resolves JUndefined]
       installed_world
  = mkRun (Settled (Val (JBool true)))
          (with_client (with_session (set_deviceId (JNum 3))) installed_world)
          [(Api_deviceRegistration_add
              (JObj {[ "description" := JStr "My Device";
                       "permitted_ips" := js_array [] ]}), Resolved (JNum 3));
           (Session_storeSession, Resolved JUndefined)].
Proof.
  apply (registerDevice_success sample_host installed_world JUndefined (resolves (JNum 3))
           (resolves JUndefined) [] (JNum 3) JUndefined);
    reflexivity.
Defined.

(** X9.  The catch block of [registerDevice] also takes the failure of
    [storeSession].  When storing the new device id fails with status 400,
    the installation is reset and a new key pair is set up although the
    device was registered, and the device id stays in the session. *)
Theorem registerDevice_store_rejected (host : Host) (w : World) (deviceName : JsVal)
    (r1 r2 r3 r4 : Reply) (replies : list Reply) (id e response v3 v4 : JsVal) :
  verifyDeviceInstallation host (session (client w)) (now w) = false ->
  reply_outcome r1 = Resolved id ->
  reply_outcome r2 = Rejected e ->
  get_prop e "response" = Val response ->
  truthy response = true ->
  get_prop response "status" = Val (JNum 400) ->
  reply_outcome r3 = Resolved v3 ->
  reply_outcome r4 = Resolved v4 ->
  Forall (keeps (view P_installation)) [r3; r4] ->
  Forall (keeps (view P_device)) [r2; r3; r4] ->
  let R := exec (registerDevice host deviceName) (r1 :: r2 :: r3 :: r4 :: replies) w in
  run_final R = Settled (Thr e)
  /\ run_trace R = [(device_request deviceName w, Resolved id);
                    (Session_storeSession, Rejected e);
                    (Session_setupKeypair true, Resolved v3);
                    (Session_storeSession, Resolved v4)]
  /\ view P_installation (run_world R) = V_installation (JNull, JNull, JNull, None, None)
  /\ view P_device (run_world R) = V_device id.
Proof.
  intros Hv H1 H2 He Ht Hs H3 H4 KI KD. unfold registerDevice, device_request.
  prog_eval. sync_eval. prog_eval. rewrite Hv. cbn [negb]. prog_eval.
  rewrite H1. prog_eval. sync_eval. prog_eval. rewrite H2. prog_eval.
  rewrite He. prog_eval. rewrite Ht. cbn [negb]. prog_eval. rewrite Hs. prog_eval.
  cbn [is_num]. rewrite Z.eqb_refl. prog_eval. sync_eval. prog_eval.
  rewrite H3. prog_eval. rewrite H4. prog_eval.
  apply Forall_cons in KI as [I3 KI]. apply Forall_cons in KI as [I4 _].
  apply Forall_cons in KD as [D2 KD]. apply Forall_cons in KD as [D3 KD].
  apply Forall_cons in KD as [D4 _].
  repeat split.
  - rewrite I4, I3. reflexivity.
  - rewrite D4, D3. cbn -[reply_effect].
    pose proof (D2 (with_client (with_session (set_deviceId id)) (reply_effect r1 w))) as E.
    cbn -[reply_effect] in E. exact E.
Qed.

Lemma registerDevice_store_rejected_witness :
  let R := exec (registerDevice sample_host (JStr "laptop"))
             [resolves (JNum 3); rejects (rejection 400); resolves (JBool true);
              resolves JUndefined] installed_world in
  run_final R = Settled (Thr (rejection 400))
  /\ run_trace R = [(device_request (JStr "laptop") installed_world, Resolved (JNum 3));
                    (Session_storeSession, Rejected (rejection 400));
                    (Session_setupKeypair true, Resolved (JBool true));
                    (Session_storeSession, Resolved JUndefined)]
  /\ view P_installation (run_world R) = V_installation (JNull, JNull, JNull, None, None)
  /\ view P_device (run_world R) = V_device (JNum 3).
Proof.
  apply (registerDevice_store_rejected sample_host installed_world (JStr "laptop")
           (resolves (JNum 3)) (rejects (rejection 400)) (resolves (JBool true))
           (resolves JUndefined) [] (JNum 3) (rejection 400)
           (JObj {[ "status" := JNum 400; "data" := JObj ∅ ]}) (JBool true) JUndefined);
    try reflexivity; repeat constructor; intros w'; reflexivity.
Defined.

(** ** [registerSession] *)

(** X10.  While the session request is in flight, [fetchingNewSession] holds
    the promise of this call, a fresh one, and the session is as it was. *)
Theorem registerSession_in_flight (host : Host) (w : World) :
  verifySessionInstallation host (session (client w)) (now w) = false ->
  let R := exec (registerSession host) [] w in
  run_final R = Pending Api_sessionServer_add
  /\ fetchingNewSession (client (run_world R)) = Some (next_promise w)
  /\ next_promise (run_world R) = S (next_promise w)
  /\ session (client (run_world R)) = session (client w).
Proof.
  intros Hv.
  assert (HG : exec (generateSession host) (shifted marked []) w
               = mkRun (Pending Api_sessionServer_add) (fetching w) []).
  { unfold generateSession. prog_eval. sync_eval. prog_eval. reflexivity. }
  cbv zeta. rewrite (registerSession_unfold host [] w _ _ _ Hv HG).
  repeat split.
Qed.

Lemma registerSession_in_flight_witness :
  let R := exec (registerSession sample_host) [] installed_world in
  run_final R = Pending Api_sessionServer_add
  /\ fetchingNewSession (client (run_world R)) = Some (next_promise installed_world)
  /\ next_promise (run_world R) = S (next_promise installed_world)
  /\ session (client (run_world R)) = session (client installed_world).
Proof.
  apply (registerSession_in_flight sample_host installed_world). reflexivity.
Defined.

(** ** [generateSession] *)




Ltac not_stored := intros <- ?; discriminate.

Ltac stored_tail H2 :=
  match goal with
  | |- context [get_prop ?response "id"] =>
      destruct (get_prop response "id") eqn:?; [|not_stored]
  end;
  match goal with
  | |- context [get_prop ?token "token"] =>
      destruct (get_prop token "token") eqn:?; [|not_stored];
      destruct (get_prop token "id") eqn:?; [|not_stored]
  end;
  prog_eval; rewrite H2; prog_eval;
  intros <- _;
  do 9 eexists;
  repeat match goal with |- _ /\ _ => split end;
  try first [reflexivity | eassumption];
  try match goal with
      | E : isOAuth _ = _ |- view _ _ = _ => rewrite E; reflexivity
      end.

(** What [generateSession] has done when [storeSession] fails, for any kind
    of principal. *)
Lemma generateSession_not_stored host w r1 r2 rest response e R :
  reply_outcome r1 = Resolved response ->
  reply_outcome r2 = Rejected e ->
  exec (generateSession host) (r1 :: r2 :: rest) w = R ->
  length (run_trace R) = 2%nat ->
  exists token created user_info u timeout id tok tid w1,
    get_prop response "token" = Val token
    /\ get_prop token "created" = Val created
    /\ get_prop response "user_info" = Val user_info
    /\ getUserType user_info = Val u
    /\ principal_timeout user_info = Val timeout
    /\ get_prop response "id" = Val id
    /\ get_prop token "token" = Val tok
    /\ get_prop token "id" = Val tid
    /\ R = mkRun (Settled (Thr e)) (reply_effect r2 w1)
                 [(Api_sessionServer_add, Resolved response);
                  (Session_storeSession, Rejected e)]
    /\ view P_session w1
       = V_session id tok tid (Some (expiry_of host created timeout))
           (timeout_ms host timeout)
           (if isOAuth u then isOAuthKey (session (client (reply_effect r1 (fetching w))))
            else false)
    /\ view P_timers w1 = view P_timers (reply_effect r1 (fetching w)).
Proof.
  intros H1 H2. unfold generateSession, fetching.
  prog_eval. sync_eval. prog_eval. rewrite H1. prog_eval.
  set (w0 := reply_effect r1 _).
  sync_eval.
  destruct (get_prop response "token") as [token|] eqn:Etoken; [|not_stored].
  destruct (get_prop token "created") as [created|] eqn:Ecreated; [|not_stored].
  destruct (get_prop response "user_info") as [user_info|] eqn:Eui; [|not_stored].
  destruct (getUserType user_info) as [u|] eqn:Eu; [|not_stored].
  destruct (isOAuth u) eqn:Eo; cbn [negb].
  - unfold parseOauthUser. sync_eval.
    destruct (get_prop (info u) "requested_by_user") as [rq|] eqn:Erq; [|not_stored].
    destruct (getUserType rq) as [ru|] eqn:Eru; [|not_stored].
    destruct (get_prop (info u) "granted_by_user") as [gr|] eqn:Egr; [|not_stored].
    destruct (getUserType gr) as [gu|] eqn:Egu; [|not_stored].
    destruct (get_prop (info ru) "session_timeout") as [timeout|] eqn:Eto; [|not_stored].
    destruct (get_prop (info gu) "id") as [gid|] eqn:Egid; [|not_stored].
    destruct (truthy gid) eqn:Tg; cbn [negb]; cbv beta iota.
    + match goal with
      | |- context [set_prop ?o "UserApiKey" ?x] =>
          destruct (set_prop o "UserApiKey" x) eqn:Eset; [|not_stored]
      end.
      stored_tail H2.
      unfold principal_timeout. rewrite Eu, Eo, Erq, Eru. exact Eto.
    + destruct (get_prop (info u) "id") as [oid|] eqn:Eoid; [|not_stored].
      destruct (set_prop (info gu) "id" oid) as [ginfo|] eqn:Eginfo; [|not_stored].
      match goal with
      | |- context [set_prop ?o "UserApiKey" ?x] =>
          destruct (set_prop o "UserApiKey" x) eqn:Eset; [|not_stored]
      end.
      stored_tail H2.
      unfold principal_timeout. rewrite Eu, Eo, Erq, Eru. exact Eto.
  - destruct (get_prop (info u) "session_timeout") as [timeout|] eqn:Eto; [|not_stored].
    stored_tail H2.
    unfold principal_timeout. rewrite Eu, Eo. exact Eto.
Qed.

(** X12.  When [storeSession] is reached (the run has two calls) and fails,
    [generateSession] fails with that error as it is (no error code is
    attached), whatever the kind of principal.  The session of the response
    is nevertheless in memory: id, token, token id, expiry and timeout as the
    engine computes them, and the OAuth flag false for a principal that is
    not an OAuth key and as it was for one that is.  The expiry timer is not
    touched. *)
Theorem generateSession_store_rejected (host : Host) (w : World) (r1 r2 : Reply)
    (rest : list Reply)
    (response token created user_info timeout id tok tid e : JsVal) (u : UserType) :
  reply_outcome r1 = Resolved response ->
  reply_outcome r2 = Rejected e ->
  get_prop response "token" = Val token ->
  get_prop token "created" = Val created ->
  get_prop response "user_info" = Val user_info ->
  getUserType user_info = Val u ->
  principal_timeout user_info = Val timeout ->
  get_prop response "id" = Val id ->
  get_prop token "token" = Val tok ->
  get_prop token "id" = Val tid ->
  keeps (view P_session) r2 ->
  keeps (view P_timers) r1 ->
  keeps (view P_timers) r2 ->
  let R := exec (generateSession host) (r1 :: r2 :: rest) w in
  length (run_trace R) = 2%nat ->
  run_final R = Settled (Thr e)
  /\ run_trace R = [(Api_sessionServer_add, Resolved response);
                    (Session_storeSession, Rejected e)]
  /\ view P_session (run_world R)
     = V_session id tok tid (Some (expiry_of host created timeout)) (timeout_ms host timeout)
         (if isOAuth u then isOAuthKey (session (client (reply_effect r1 (fetching w))))
          else false)
  /\ view P_timers (run_world R) = view P_timers w.
Proof.
  intros H1 H2 Htoken Hcreated Hui Hu Hto Hid Htok Htid K2 T1 T2 R Hlen.
  destruct (generateSession_not_stored host w r1 r2 rest response e R H1 H2 eq_refl Hlen)
    as (token' & created' & ui' & u' & timeout' & id' & tok' & tid' & w1 &
        Et & Ec & Eui & Eu & Ept & Eid & Etok & Etid & HR & Hs & Ht).
  rewrite Htoken in Et; injection Et as <-.
  rewrite Hcreated in Ec; injection Ec as <-.
  rewrite Hui in Eui; injection Eui as <-.
  rewrite Hu in Eu; injection Eu as <-.
  rewrite Hto in Ept; injection Ept as <-.
  rewrite Hid in Eid; injection Eid as <-.
  rewrite Htok in Etok; injection Etok as <-.
  rewrite Htid in Etid; injection Etid as <-.
  rewrite HR. cbn [run_final run_world run_trace].
  rewrite K2, T2, Hs, Ht, T1. auto.
Qed.

Lemma generateSession_store_rejected_witness :
  let R := exec (generateSession sample_host)
             [resolves (session_response oauth_payload); rejects network_error] new_world in
  run_final R = Settled (Thr network_error)
  /\ run_trace R = [(Api_sessionServer_add, Resolved (session_response oauth_payload));
                    (Session_storeSession, Rejected network_error)]
  /\ view P_session (run_world R)
     = V_session (JNum 7) (JStr "session-token") (JNum 11)
         (Some (expiry_of sample_host (JStr "2019-06-01 12:00:00.000000") (JNum 600)))
         (timeout_ms sample_host (JNum 600))
         (if isOAuth oauth_user
          then isOAuthKey (session (client (reply_effect
                                              (resolves (session_response oauth_payload))
                                              (fetching new_world))))
          else false)
  /\ view P_timers (run_world R) = view P_timers new_world.
Proof.
  apply (generateSession_store_rejected sample_host new_world
           (resolves (session_response oauth_payload)) (rejects network_error) []
           (session_response oauth_payload)
           (JObj {[ "id" := JNum 11;
                    "created" := JStr "2019-06-01 12:00:00.000000";
                    "token" := JStr "session-token" ]})
           (JStr "2019-06-01 12:00:00.000000") oauth_payload (JNum 600) (JNum 7)
           (JStr "session-token") (JNum 11) network_error oauth_user);
    try reflexivity; intros w'; reflexivity.
Defined.



(** ** A response that cannot be read *)

Lemma get_prop_total (v : JsVal) (p q : string) (x : JsVal) :
  get_prop v p = Val x -> exists y, get_prop v q = Val y.
Proof. destruct v; simpl; intros H; try discriminate; eauto. Qed.

Ltac unreadable H q :=
  let y := fresh "y" in
  let Hy := fresh "Hy" in
  destruct (get_prop_total _ _ q _ H) as [y Hy]; rewrite Hy; cbv beta iota.

(** X14.  A response that cannot be read costs nothing.  When [generateSession]
    fails after the answer of the server and before [storeSession] (a missing
    token, an unknown kind of user, an OAuth key without its users), no part
    of the state has changed since that answer: the session is never left
    half written. *)
Theorem generateSession_malformed_response (host : Host) (w : World) (r1 : Reply)
    (rest : list Reply) (response e : JsVal) (part : Part) :
  reply_outcome r1 = Resolved response ->
  let R := exec (generateSession host) (r1 :: rest) w in
  run_final R = Settled (Thr e) ->
  run_trace R = [(Api_sessionServer_add, Resolved response)] ->
  view part (run_world R) = view part (reply_effect r1 (fetching w)).
Proof.
  intros H1. unfold generateSession, fetching.
  prog_eval. sync_eval. prog_eval. rewrite H1. prog_eval.
  set (w0 := reply_effect r1 _).
  sync_eval.
  destruct (get_prop response "token") as [token|] eqn:Etoken;
    [|intros _ _; destruct part; reflexivity].
  destruct (get_prop token "created") as [created|] eqn:Ecreated;
    [|intros _ _; destruct part; reflexivity].
  destruct (get_prop response "user_info") as [user_info|] eqn:Eui;
    [|intros _ _; destruct part; reflexivity].
  destruct (getUserType user_info) as [u|] eqn:Eu;
    [|intros _ _; destruct part; reflexivity].
  destruct (isOAuth u) eqn:Eo; cbn [negb].
  - unfold parseOauthUser. sync_eval.
    destruct (get_prop (info u) "requested_by_user") as [rq|] eqn:Erq;
      [|intros _ _; destruct part; reflexivity].
    destruct (getUserType rq) as [ru|] eqn:Eru; [|intros _ _; destruct part; reflexivity].
    destruct (get_prop (info u) "granted_by_user") as [gr|] eqn:Egr;
      [|intros _ _; destruct part; reflexivity].
    destruct (getUserType gr) as [gu|] eqn:Egu; [|intros _ _; destruct part; reflexivity].
    destruct (get_prop (info ru) "session_timeout") as [timeout|] eqn:Eto;
      [|intros _ _; destruct part; reflexivity].
    destruct (get_prop (info gu) "id") as [gid|] eqn:Egid;
      [|intros _ _; destruct part; reflexivity].
    destruct (truthy gid) eqn:Tg; cbn [negb]; cbv beta iota.
    + match goal with
      | |- context [set_prop ?o "UserApiKey" ?x] =>
          destruct (set_prop o "UserApiKey" x) eqn:Eset;
            [|intros _ _; destruct part; reflexivity]
      end.
      unreadable Etoken "id". unreadable Ecreated "token". unreadable Ecreated "id".
      prog_eval. destruct rest as [|r2 rest]; prog_eval; [discriminate|].
      destruct (reply_outcome r2); prog_eval; [|discriminate].
      match goal with
      | |- context [setExpiryTimer ?h ?b ?x] => destruct (setExpiryTimer h b x) as [[?|?] ?]
      end; prog_eval; discriminate.
    + destruct (get_prop (info u) "id") as [oid|] eqn:Eoid;
        [|intros _ _; destruct part; reflexivity].
      destruct (set_prop (info gu) "id" oid) as [ginfo|] eqn:Eginfo;
        [|intros _ _; destruct part; reflexivity].
      match goal with
      | |- context [set_prop ?o "UserApiKey" ?x] =>
          destruct (set_prop o "UserApiKey" x) eqn:Eset;
            [|intros _ _; destruct part; reflexivity]
      end.
      unreadable Etoken "id". unreadable Ecreated "token". unreadable Ecreated "id".
      prog_eval. destruct rest as [|r2 rest]; prog_eval; [discriminate|].
      destruct (reply_outcome r2); prog_eval; [|discriminate].
      match goal with
      | |- context [setExpiryTimer ?h ?b ?x] => destruct (setExpiryTimer h b x) as [[?|?] ?]
      end; prog_eval; discriminate.
  - destruct (get_prop (info u) "session_timeout") as [timeout|] eqn:Eto;
      [|intros _ _; destruct part; reflexivity].
    unreadable Etoken "id". unreadable Ecreated "token". unreadable Ecreated "id".
    prog_eval. destruct rest as [|r2 rest]; prog_eval; [discriminate|].
    destruct (reply_outcome r2); prog_eval; [|discriminate].
    match goal with
    | |- context [setExpiryTimer ?h ?b ?x] => destruct (setExpiryTimer h b x) as [[?|?] ?]
    end; prog_eval; discriminate.
Qed.

Lemma generateSession_malformed_response_witness :
  view P_userInfo
    (run_world (exec (generateSession sample_host)
                     [resolves (JObj {[ "user_info" := company_payload ]})] new_world))
  = view P_userInfo (reply_effect (resolves (JObj {[ "user_info" := company_payload ]}))
                                  (fetching new_world)).
Proof.
  apply (generateSession_malformed_response sample_host new_world
           (resolves (JObj {[ "user_info" := company_payload ]})) []
           (JObj {[ "user_info" := company_payload ]})
           (js_TypeError "Cannot read property created") P_userInfo);
    reflexivity.
Defined.

(** ** The expiry timer *)

(** X15.  [clearExpiryTimer] cancels the timer of the session and nothing else,
    keeps the handle in the session, and is idempotent. *)
Theorem clearExpiryTimer_idempotent (w : World) :
  let w' := (clearExpiryTimer w).2 in
  (clearExpiryTimer w').2 = w'
  /\ sessionExpiryTimeChecker (session (client w')) = sessionExpiryTimeChecker (session (client w))
  /\ (forall h, sessionExpiryTimeChecker (session (client w)) = Some h ->
                timers w' = delete h (timers w))
  /\ (sessionExpiryTimeChecker (session (client w)) = None -> w' = w).
Proof.
  unfold clearExpiryTimer. sync_eval.
  destruct (sessionExpiryTimeChecker (session (client w))) as [h|] eqn:E; cbn.
  - rewrite E. cbn. unfold cancel_timer. cbn. rewrite delete_delete_eq.
    repeat split; try discriminate. intros h' [= <-]. reflexivity.
  - rewrite E. repeat split; discriminate.
Qed.

(** X16.  [setExpiryTimer] replaces the timer.  Outside CI, with keepAlive on
    and a known expiry, and when the only timer that may be armed is the one
    of the session, the timers afterwards are exactly the new one. *)
Theorem setExpiryTimer_replaces (host : Host) (shortTimeout : bool) (w : World)
    (expiry : Date) :
  env_ci host = false ->
  keepAlive (client w) = true ->
  sessionExpiryTime (session (client w)) = Some expiry ->
  timer_owned w ->
  let w' := (setExpiryTimer host shortTimeout w).2 in
  let timeout := sessionTimeout (session (client w)) in
  let delay :=
    if shortTimeout
    then (if num_gt timeout (Finite FIVE_MINUTES_MS) then Finite FIVE_MINUTES_MS else timeout)
    else num_sub (getTime expiry) (Finite (now w)) in
  timers w' = {[ next_timer w := mkTimer ExpiryTimerCallback (num_sub delay (Finite 15000)) (now w) ]}
  /\ sessionExpiryTimeChecker (session (client w')) = Some (next_timer w)
  /\ next_timer w' = S (next_timer w).
Proof.
  intros Hci Hka He Hown. unfold setExpiryTimer. rewrite Hci.
  sync_eval. rewrite Hka, He. cbn [negb]. unfold clearExpiryTimer. sync_eval.
  assert (Hempty : forall h, sessionExpiryTimeChecker (session (client w)) = h ->
            match h with Some h => delete h (timers w) | None => timers w end = ∅).
  { intros [h|] Hh; apply map_eq; intros i; rewrite lookup_empty.
    - destruct (decide (i = h)) as [->|Hne]; [apply lookup_delete_eq|].
      rewrite lookup_delete_ne by congruence.
      destruct (timers w !! i) as [t|] eqn:Ei; [|reflexivity].
      specialize (Hown i t Ei). congruence.
    - destruct (timers w !! i) as [t|] eqn:Ei; [|reflexivity].
      specialize (Hown i t Ei). congruence. }
  destruct (sessionExpiryTimeChecker (session (client w))) as [h|] eqn:E; cbn;
    rewrite (Hempty _ eq_refl); repeat split; destruct shortTimeout; reflexivity.
Qed.

Lemma setExpiryTimer_replaces_witness :
  let w' := (setExpiryTimer sample_host false valid_world).2 in
  let timeout := sessionTimeout (session (client valid_world)) in
  let delay := num_sub (Finite 1559394000000) (Finite (now valid_world)) in
  timers w' = {[ next_timer valid_world :=
                   mkTimer ExpiryTimerCallback (num_sub delay (Finite 15000)) (now valid_world) ]}
  /\ sessionExpiryTimeChecker (session (client w')) = Some (next_timer valid_world)
  /\ next_timer w' = S (next_timer valid_world).
Proof.
  apply (setExpiryTimer_replaces sample_host false valid_world (Some 1559394000000));
    try reflexivity.
  intros h t Hl. change (timers valid_world) with
    ({[ 0%nat := mkTimer ExpiryTimerCallback (Finite 3584500) 1559390400500 ]} : gmap nat Timer)
    in Hl.
  apply lookup_singleton_Some in Hl as [<- _]. reflexivity.
Defined.

(** ** [expiryTimerCallback] *)

(** X17.  The timer callback never rejects.  With keepAlive off it returns
    false at once, without a call.  Otherwise it returns undefined at once,
    with the timer armed again, and leaves behind a refresh that has asked
    for the users once; whatever the answer, and whether the classification
    of the answer succeeds or not, that refresh ends without an error. *)
Theorem expiryTimerCallback_never_rejects (host : Host) (w : World) :
  if keepAlive (client w) then
    exists k,
      expiryTimerCallback host w
      = (Val (JUndefined, Some (Waiting Api_user_list k)), (setExpiryTimer host true w).2)
      /\ forall (o : Outcome) (w1 : World),
           exists w2, advance (k o) w1 = (Done (Val tt), w2)
  else
    expiryTimerCallback host w = (Val (JBool false, None), (clearExpiryTimer w).2).
Proof.
  destruct (keepAlive (client w)) eqn:Hk; [|apply expiryTimerCallback_off; exact Hk].
  unfold expiryTimerCallback, detached, refresh_chain, getUsers, refresh_users.
  sync_eval. rewrite Hk. cbn [negb].
  cbn [advance prog_bind try_catch sync await mbind Prog_bind mret Prog_ret].
  destruct (setExpiryTimer_returns host true w) as [v Hv].
  destruct (setExpiryTimer host true w) as [res wt]. cbn [fst snd] in *. subst res.
  eexists. split; [reflexivity|]. intros o w1. cbv beta.
  destruct o as [userList|e];
    cbn [advance prog_bind try_catch sync await mbind Prog_bind mret Prog_ret];
    sync_eval;
    cbn [advance prog_bind try_catch sync await mbind Prog_bind mret Prog_ret];
    [|eexists; reflexivity].
  destruct (getUserType userList) as [u|e];
    cbn [advance prog_bind try_catch sync await mbind Prog_bind mret Prog_ret];
    [|sync_eval; eexists; reflexivity].
  destruct (isOAuth u);
    cbn [advance prog_bind try_catch sync await mbind Prog_bind mret Prog_ret].
  - match goal with
    | |- context [parseOauthUser ?h ?u ?x] =>
        destruct (parseOauthUser h u x) as [[v'|e] wp]
    end;
      cbn [advance prog_bind try_catch sync await mbind Prog_bind mret Prog_ret];
      sync_eval; eexists; reflexivity.
  - sync_eval.
    match goal with
    | |- context [set_prop ?o ?k ?x] => destruct (set_prop o k x) as [v'|e]
    end;
      cbn [advance prog_bind try_catch sync await mbind Prog_bind mret Prog_ret];
      sync_eval; eexists; reflexivity.
Qed.

Lemma refresh_frames host part :
  part <> P_userInfo ->
  frames (view part) (refresh_chain host;; mret JUndefined).
Proof.
  intros Hp. unfold refresh_chain, getUsers, refresh_users.
  destruct part; try (exfalso; apply Hp; reflexivity); clear Hp; frame_op.
Qed.

(** X18.  The timer callback arms the timer again before the refresh has an
    answer.  With keepAlive on, the world the callback returns in is the one
    that [setExpiryTimer(true)] leaves, and timers and handle are still those
    when the refresh it left behind has run, whatever that refresh does. *)
Theorem expiryTimerCallback_rearms (host : Host) (replies : list Reply) (w : World) :
  keepAlive (client w) = true ->
  Forall (keeps (view P_timers)) replies ->
  (expiryTimerCallback host w).2 = (setExpiryTimer host true w).2
  /\ view P_timers (run_world (exec (timer_fired host) replies w))
     = view P_timers (setExpiryTimer host true w).2.
Proof.
  intros Hka HK. split.
  - destruct (expiryTimerCallback_on host w Hka) as (k & Hc & _). rewrite Hc. reflexivity.
  - rewrite (timer_fired_on host replies w Hka).
    apply (refresh_frames host P_timers ltac:(discriminate) replies
             (setExpiryTimer host true w).2 HK).
Qed.

Lemma expiryTimerCallback_rearms_witness :
  (expiryTimerCallback sample_host valid_world).2
  = (setExpiryTimer sample_host true valid_world).2
  /\ view P_timers (run_world (exec (timer_fired sample_host) [rejects network_error]
                                    valid_world))
     = view P_timers (setExpiryTimer sample_host true valid_world).2.
Proof.
  apply (expiryTimerCallback_rearms sample_host [rejects network_error] valid_world);
    [reflexivity|].
  repeat constructor.
Defined.

(** ** [destroySession] *)

(** X19.  [destroySession] always tears down locally.  The remote delete is
    sent only when installation, device and session are verified, and its
    outcome does not matter: the timer of the session is cancelled, the
    session is destroyed, and the result is undefined. *)
Theorem destroySession_local (host : Host) (w : World) (r1 r2 : Reply) (rest : list Reply)
    (v : JsVal) :
  reply_outcome r2 = Resolved v ->
  let remote := deletes_remotely host w in
  exec (destroySession host) ((if remote then [r1] else []) ++ r2 :: rest) w
  = mkRun (Settled (Val JUndefined))
          (reply_effect r2 (clearExpiryTimer (if remote then reply_effect r1 w else w)).2)
          ((if remote then [(Api_sessionServer_delete, reply_outcome r1)] else [])
           ++ [(Session_destroySession, Resolved v)]).
Proof.
  intros H2. unfold deletes_remotely, destroySession. prog_eval. sync_eval. prog_eval.
  destruct (verifyInstallation host (session (client w)) (now w)
            && verifyDeviceInstallation host (session (client w)) (now w)
            && verifySessionInstallation host (session (client w)) (now w));
    cbn [app]; prog_eval.
  - destruct (reply_outcome r1); prog_eval;
      destruct (clearExpiryTimer (reply_effect r1 w)) as [[[]|?] ?] eqn:Ec; prog_eval;
      try (rewrite H2; prog_eval; reflexivity);
      exfalso; revert Ec; unfold clearExpiryTimer; sync_eval;
      destruct (sessionExpiryTimeChecker (session (client (reply_effect r1 w))));
      discriminate.
  - destruct (clearExpiryTimer w) as [[[]|?] ?] eqn:Ec; prog_eval;
      try (rewrite H2; prog_eval; reflexivity);
      exfalso; revert Ec; unfold clearExpiryTimer; sync_eval;
      destruct (sessionExpiryTimeChecker (session (client w)));
      discriminate.
Qed.

Lemma destroySession_local_witness :
  exec (destroySession sample_host)
       ((if deletes_remotely sample_host valid_world then [rejects network_error] else [])
        ++ [resolves JUndefined]) valid_world
  = mkRun (Settled (Val JUndefined))
          (reply_effect (resolves JUndefined)
             (clearExpiryTimer (if deletes_remotely sample_host valid_world
                                then reply_effect (rejects network_error) valid_world
                                else valid_world)).2)
          ((if deletes_remotely sample_host valid_world
            then [(Api_sessionServer_delete, reply_outcome (rejects network_error))] else [])
           ++ [(Session_destroySession, Resolved JUndefined)]).
Proof.
  apply (destroySession_local sample_host valid_world (rejects network_error)
           (resolves JUndefined) [] JUndefined).
  reflexivity.
Defined.

(** ** [getUsers] and [getUser] *)

(** X20.  What [getUsers(true)] fetched, [getUser] returns without a call.  For
    a principal that is not an OAuth key the refresh adds it to the cached
    user info under its type and keeps the other entries; a later
    [getUser(type)] reads it back and sends nothing. *)
Theorem getUser_after_refresh (host : Host) (w : World) (r : Reply) (rest replies : list Reply)
    (userList : JsVal) (u : UserType) (cached : gmap string JsVal) :
  reply_outcome r = Resolved userList ->
  getUserType userList = Val u ->
  isOAuth u = false ->
  userInfo (session (client (reply_effect r w))) = JObj cached ->
  let R := exec (getUsers host true) (r :: rest) w in
  run_final R = Settled (Val (JObj (<[type u := info u]> cached)))
  /\ run_trace R = [(Api_user_list, Resolved userList)]
  /\ exec (getUser host (type u) false) replies (run_world R)
     = mkRun (Settled (Val (info u))) (run_world R) [].
Proof.
  intros Hr Hu Ho Hc. unfold getUsers, getUser, refresh_users.
  prog_eval. rewrite Hr. prog_eval. sync_eval. rewrite Hu. prog_eval. rewrite Ho. prog_eval.
  sync_eval. rewrite Hc. cbn [set_prop]. prog_eval. sync_eval. prog_eval.
  repeat split.
  match goal with
  | |- context [get_member ?h (userInfo ?s) ?k] =>
      change (get_member h (userInfo s) k)
        with (Val (default (inherited h (JObj (<[type u := info u]> cached)) (type u))
                           (<[type u := info u]> cached !! type u)))
  end.
  rewrite lookup_insert_eq. reflexivity.
Qed.

Lemma getUser_after_refresh_witness :
  let R := exec (getUsers sample_host true) [resolves company_payload] new_world in
  run_final R
  = Settled (Val (JObj (<["UserCompany" :=
                            JObj {[ "id" := JNum 42; "session_timeout" := JNum 3600 ]}]> ∅)))
  /\ run_trace R = [(Api_user_list, Resolved company_payload)]
  /\ exec (getUser sample_host "UserCompany" false) [rejects network_error] (run_world R)
     = mkRun (Settled (Val (JObj {[ "id" := JNum 42; "session_timeout" := JNum 3600 ]})))
             (run_world R) [].
Proof.
  apply (getUser_after_refresh sample_host new_world (resolves company_payload) []
           [rejects network_error] company_payload
           (mkUserType (JObj {[ "id" := JNum 42; "session_timeout" := JNum 3600 ]})
                       "UserCompany" false) ∅);
    reflexivity.
Defined.

(** ** The credential requests *)

Lemma get_first_js_array (x : JsVal) (l : list JsVal) : get_first (js_array (x :: l)) = Val x.
Proof.
  unfold js_array, get_first, get_prop. cbn [js_array_from].
  rewrite lookup_insert_ne by discriminate.
  change (pretty 0%nat) with "0". rewrite lookup_insert_eq. reflexivity.
Qed.

(** X21.  [createCredentials] and [checkCredentialStatus] send one request (the
    status check with the uuid at the end of the URL) and return the
    [UserCredentialPasswordIpRequest] of the first entry of [Response]; the
    other entries are not read, and the client is not written. *)
Theorem credentials_first_entry (host : Host) (op : Operation) (w : World) (r : Reply)
    (rest : list Reply) (response entry : JsVal) (more : list JsVal) :
  credential_operation op = true ->
  reply_outcome r = Resolved response ->
  get_prop response "Response" = Val (js_array (entry :: more)) ->
  exec (perform host op) (r :: rest) w
  = mkRun (Settled (get_prop entry "UserCredentialPasswordIpRequest")) (reply_effect r w)
          [(credential_request op, Resolved response)].
Proof.
  intros Hop Hr Hl.
  destruct op; try discriminate Hop; cbn [perform credential_request];
    unfold createCredentials, checkCredentialStatus;
    prog_eval; rewrite Hr; prog_eval; sync_eval; rewrite Hl; cbv beta iota;
    rewrite get_first_js_array; cbv beta iota;
    destruct (get_prop entry "UserCredentialPasswordIpRequest"); reflexivity.
Qed.

Lemma credentials_first_entry_witness :
  exec (perform sample_host (Op_checkCredentialStatus "abc"))
       [resolves (JObj {[ "Response" :=
                            js_array [JObj {[ "UserCredentialPasswordIpRequest" := JNum 1 ]};
                                      JObj {[ "UserCredentialPasswordIpRequest" := JNum 2 ]}] ]})]
       new_world
  = mkRun (Settled (get_prop (JObj {[ "UserCredentialPasswordIpRequest" := JNum 1 ]})
                             "UserCredentialPasswordIpRequest"))
          new_world
          [(credential_request (Op_checkCredentialStatus "abc"),
            Resolved (JObj {[ "Response" :=
                            js_array [JObj {[ "UserCredentialPasswordIpRequest" := JNum 1 ]};
                                      JObj {[ "UserCredentialPasswordIpRequest" := JNum 2 ]}] ]}))].
Proof.
  apply (credentials_first_entry sample_host (Op_checkCredentialStatus "abc") new_world
           (resolves (JObj {[ "Response" :=
                            js_array [JObj {[ "UserCredentialPasswordIpRequest" := JNum 1 ]};
                                      JObj {[ "UserCredentialPasswordIpRequest" := JNum 2 ]}] ]}))
           []
           (JObj {[ "Response" :=
                            js_array [JObj {[ "UserCredentialPasswordIpRequest" := JNum 1 ]};
                                      JObj {[ "UserCredentialPasswordIpRequest" := JNum 2 ]}] ]})
           (JObj {[ "UserCredentialPasswordIpRequest" := JNum 1 ]})
           [JObj {[ "UserCredentialPasswordIpRequest" := JNum 2 ]}]);
    reflexivity.
Defined.

(** X22.  An empty [Response].  The credential operations then reject with a
    TypeError, as they do when the answer has no [Response] at all. *)
Theorem credentials_empty_response (host : Host) (op : Operation) (w : World) (r : Reply)
    (rest : list Reply) (response list : JsVal) :
  credential_operation op = true ->
  reply_outcome r = Resolved response ->
  get_prop response "Response" = Val list ->
  list = js_array [] \/ list = JUndefined ->
  exists message,
    exec (perform host op) (r :: rest) w
    = mkRun (Settled (Thr (js_TypeError message))) (reply_effect r w)
            [(credential_request op, Resolved response)].
Proof.
  intros Hop Hr Hl Hcase.
  destruct op; try discriminate Hop; cbn [perform credential_request];
    unfold createCredentials, checkCredentialStatus;
    prog_eval; rewrite Hr; prog_eval; sync_eval; rewrite Hl; cbv beta iota;
    destruct Hcase as [-> | ->]; eexists; reflexivity.
Qed.

Lemma credentials_empty_response_witness :
  exists message,
    exec (perform sample_host Op_createCredentials)
         [resolves (JObj {[ "Response" := js_array [] ]})] new_world
    = mkRun (Settled (Thr (js_TypeError message))) new_world
            [(credential_request Op_createCredentials,
              Resolved (JObj {[ "Response" := js_array [] ]}))].
Proof.
  apply (credentials_empty_response sample_host Op_createCredentials new_world
           (resolves (JObj {[ "Response" := js_array [] ]})) []
           (JObj {[ "Response" := js_array [] ]}) (js_array []));
    try reflexivity.
  left. reflexivity.
Defined.

(** ** [run] *)

(** X23.  [run] in order.  The key and the allowed addresses are taken first
    (no addresses when none are given), then the session is set up, with
    "SANDBOX" and no encryption key as defaults, then the expiry timer is set
    for the session that was loaded, then the API adapter is set up; the
    client ends up with the key and the addresses of the call. *)
Theorem run_success (host : Host) (w : World) (apiKey allowedIps environment encryptionKey : JsVal)
    (r1 r2 : Reply) (rest : list Reply) (v1 v2 : JsVal) :
  reply_outcome r1 = Resolved v1 ->
  reply_outcome r2 = Resolved v2 ->
  Forall (keeps (view P_credentials)) [r1; r2] ->
  let R := exec (run host apiKey allowedIps environment encryptionKey) (r1 :: r2 :: rest) w in
  R = mkRun (Settled (Val JUndefined))
            (reply_effect r2
               (setExpiryTimer host false (reply_effect r1 (configured apiKey allowedIps w))).2)
            [(setup_request apiKey allowedIps environment encryptionKey, Resolved v1);
             (ApiAdapter_setup, Resolved v2)]
  /\ view P_credentials (run_world R)
     = V_credentials apiKey (if defined allowedIps then allowedIps else js_array []).
Proof.
  intros H1 H2 K.
  assert (HR : exec (run host apiKey allowedIps environment encryptionKey) (r1 :: r2 :: rest) w
               = mkRun (Settled (Val JUndefined))
                   (reply_effect r2
                      (setExpiryTimer host false
                         (reply_effect r1 (configured apiKey allowedIps w))).2)
                   [(setup_request apiKey allowedIps environment encryptionKey, Resolved v1);
                    (ApiAdapter_setup, Resolved v2)]).
  { unfold run, setup_request, configured.
    prog_eval. sync_eval. prog_eval. rewrite H1. prog_eval.
    match goal with
    | |- context [setExpiryTimer ?h ?b ?x] =>
        destruct (setExpiryTimer_returns h b x) as [v Hv];
        destruct (setExpiryTimer h b x) as [res wt] eqn:Et
    end.
    cbn [fst] in Hv. subst res. prog_eval. rewrite H2. prog_eval. reflexivity. }
  cbv zeta. rewrite HR. split; [reflexivity|]. cbn [run_world].
  apply Forall_cons in K as [K1 K]. apply Forall_cons in K as [K2 _].
  rewrite K2, setExpiryTimer_view, K1 by discriminate. reflexivity.
Qed.

Lemma run_success_witness :
  let R := exec (run sample_host (JStr "key") JUndefined JUndefined JUndefined)
             [resolves JUndefined; resolves JUndefined] session_world in
  R = mkRun (Settled (Val JUndefined))
            (setExpiryTimer sample_host false
               (configured (JStr "key") JUndefined session_world)).2
            [(Session_setup (JStr "key") (js_array []) (JStr "SANDBOX") (JBool false),
              Resolved JUndefined);
             (ApiAdapter_setup, Resolved JUndefined)]
  /\ view P_credentials (run_world R) = V_credentials (JStr "key") (js_array []).
Proof.
  apply (run_success sample_host session_world (JStr "key") JUndefined JUndefined JUndefined
           (resolves JUndefined) (resolves JUndefined) [] JUndefined JUndefined);
    try reflexivity.
  repeat constructor.
Defined.

(** X24.  A failing [Session.setup].  [run] fails with its error; the client
    has taken the new key and addresses all the same, the expiry timer is
    not touched and the API adapter is not set up. *)
Theorem run_setup_rejected (host : Host) (w : World)
    (apiKey allowedIps environment encryptionKey : JsVal) (r1 : Reply) (rest : list Reply)
    (e : JsVal) :
  reply_outcome r1 = Rejected e ->
  keeps (view P_credentials) r1 ->
  keeps (view P_timers) r1 ->
  let R := exec (run host apiKey allowedIps environment encryptionKey) (r1 :: rest) w in
  run_final R = Settled (Thr e)
  /\ run_trace R = [(setup_request apiKey allowedIps environment encryptionKey, Rejected e)]
  /\ view P_credentials (run_world R)
     = V_credentials apiKey (if defined allowedIps then allowedIps else js_array [])
  /\ view P_timers (run_world R) = view P_timers w.
Proof.
  intros H1 KC KT. unfold run, setup_request.
  prog_eval. sync_eval. prog_eval. rewrite H1. prog_eval.
  rewrite KC, KT. repeat split.
Qed.

Lemma run_setup_rejected_witness :
  let R := exec (run sample_host (JStr "key") (js_array [JStr "10.0.0.1"]) (JStr "PRODUCTION")
                     JUndefined)
             [rejects network_error; resolves JUndefined] armed_world in
  run_final R = Settled (Thr network_error)
  /\ run_trace R
     = [(setup_request (JStr "key") (js_array [JStr "10.0.0.1"]) (JStr "PRODUCTION") JUndefined,
         Rejected network_error)]
  /\ view P_credentials (run_world R)
     = V_credentials (JStr "key")
         (if defined (js_array [JStr "10.0.0.1"]) then js_array [JStr "10.0.0.1"]
          else js_array [])
  /\ view P_timers (run_world R) = view P_timers armed_world.
Proof.
  apply (run_setup_rejected sample_host armed_world (JStr "key") (js_array [JStr "10.0.0.1"])
           (JStr "PRODUCTION") JUndefined (rejects network_error) [resolves JUndefined]
           network_error);
    try reflexivity; intros w'; reflexivity.
Defined.

(** ** [parseOauthUser] *)

(** X25.  [parseOauthUser] writes the session last.  When it throws, the
    client, the timers and the clock are as they were; only the log may have
    grown. *)
Theorem parseOauthUser_failure_atomic (host : Host) (u : UserType) (w : World) (e : JsVal) :
  (parseOauthUser host u w).1 = Thr e ->
  exists lines,
    (parseOauthUser host u w).2
    = mkWorld (client w) (now w) (timers w) (next_timer w) (next_promise w)
              (logged w ++ lines).
Proof.
  unfold parseOauthUser. sync_eval.
  repeat match goal with
         | |- context [match ?x with _ => _ end] => destruct_innermost x
         end;
    cbn [fst snd]; intros H; try discriminate H;
    first [ exists []; rewrite app_nil_r; destruct w; reflexivity
          | eexists; reflexivity ].
Qed.

Lemma parseOauthUser_failure_atomic_witness :
  exists lines,
    (parseOauthUser sample_host (mkUserType (JObj ∅) "UserApiKey" true) new_world).2
    = mkWorld (client new_world) (now new_world) (timers new_world) (next_timer new_world)
              (next_promise new_world) (logged new_world ++ lines).
Proof.
  apply (parseOauthUser_failure_atomic sample_host (mkUserType (JObj ∅) "UserApiKey" true)
           new_world (js_TypeError "Cannot read property UserCompany")).
  reflexivity.
Defined.
